(** * pydkg: the ECDKG protocol engine of [pydkg/ecdkg.py]

    A shallow embedding of the session state machine ([ECDKG]), its
    participants and complaints, and the phase handlers, followed by the
    properties the specification states about them.

    Conventions of the embedding.
    - Python integers are [Z]; a curve point is the pair of integers py_ecc
      works with; a tuple is a [list]; an attribute that may be [None] is an
      [option].
    - A raised exception is the left injection of [result]; a handler returns
      the state it leaves behind together with the exception that escaped it,
      if any.  Objects mutated before the exception keep their new values, as
      the Python objects do.
    - The rows of the three tables are kept in lists, in the order the ORM
      yields them; [db.Session.commit()] and logging leave no trace in the
      model.
    - [secp256k1.add], [secp256k1.multiply] and the helpers of [util] are not
      part of [ecdkg.py]: they are section variables. *)

From Stdlib Require Import ZArith QArith Qround Ascii String List Lia Bool.
From stdpp Require Import base option list gmap.
Import ListNotations.

Local Open Scope Z_scope.

(** ** Exceptions *)

Inductive exn : Type :=
| ProtocolError (msg : string)
| ValueError
| TypeError
| IndexError
| AttributeError
| MultipleResultsFound.

Definition result (A : Type) : Type := (exn + A)%type.

Definition raise {A : Type} (e : exn) : result A := inl e.
Definition ret {A : Type} (a : A) : result A := inr a.

Definition bind {A B : Type} (r : result A) (k : A -> result B) : result B :=
  match r with
  | inl e => inl e
  | inr a => k a
  end.

Notation "'do' x <- r ; k" := (bind r (fun x => k))
  (at level 10, x name, r at level 100, k at level 200).

Definition is_ProtocolError (o : option exn) : bool :=
  match o with
  | Some (ProtocolError _) => true
  | _ => false
  end.

(** ** Text: [int(s, 16)], slices and the [x] format *)

Definition ord (c : ascii) : Z := Z.of_N (N_of_ascii c).

Definition hex_digit_value (c : ascii) : option Z :=
  let n := ord c in
  if (48 <=? n) && (n <=? 57) then Some (n - 48)
  else if (97 <=? n) && (n <=? 102) then Some (n - 87)
  else if (65 <=? n) && (n <=? 70) then Some (n - 55)
  else None.

Definition is_space (c : ascii) : bool :=
  let n := ord c in ((9 <=? n) && (n <=? 13)) || (n =? 32).

Fixpoint skip_space (s : string) : string :=
  match s with
  | String c s' => if is_space c then skip_space s' else s
  | EmptyString => s
  end.

Definition is_underscore (c : ascii) : bool := ord c =? 95.

(** The digit scan of [int]: single underscores may separate digits.
    [prev] tells that the previous character was an underscore, [any] that a
    digit has been read.  Returns the value and the unread rest. *)
Fixpoint scan_digits (prev any : bool) (acc : Z) (s : string)
  : option (Z * string) :=
  let finish := if prev || negb any then None else Some (acc, s) in
  match s with
  | EmptyString => finish
  | String c s' =>
      if is_underscore c then
        if prev then None else scan_digits true any acc s'
      else
        match hex_digit_value c with
        | Some d => scan_digits false true (16 * acc + d) s'
        | None => finish
        end
  end.

Definition skip_sign (s : string) : Z * string :=
  match s with
  | String "+"%char s' => (1, s')
  | String "-"%char s' => (-1, s')
  | _ => (1, s)
  end.

Definition skip_prefix (s : string) : string :=
  match s with
  | String "0"%char (String x s') =>
      if (ord x =? 120) || (ord x =? 88) then
        match s' with
        | String "_"%char s'' => s''
        | _ => s'
        end
      else s
  | _ => s
  end.

(** [int(s, 16)] on text: surrounding white space, a sign, a [0x] prefix and
    single underscores between digits are accepted; anything else that is
    not a run of hexadecimal digits raises [ValueError]. *)
Definition int16 (s : string) : result Z :=
  let '(sign, s1) := skip_sign (skip_space s) in
  let s2 := skip_prefix s1 in
  match s2 with
  | String "_"%char _ => raise ValueError
  | _ =>
      match scan_digits false false 0 s2 with
      | None => raise ValueError
      | Some (v, rest) =>
          match skip_space rest with
          | EmptyString => ret (sign * v)
          | _ => raise ValueError
          end
      end
  end.

(** [s[i:j]] for [0 <= i <= j]. *)
Definition slice (s : string) (i j : nat) : string := substring i (j - i) s.

(** [tuple(int(s[i:i+64], 16) for i in (0, 64))] *)
Definition parse_point (s : string) : result (Z * Z) :=
  do x <- int16 (slice s 0 64);
  do y <- int16 (slice s 64 128);
  ret (x, y).

Definition hex_char (d : Z) : ascii :=
  if d <? 10 then ascii_of_N (Z.to_N (48 + d)) else ascii_of_N (Z.to_N (87 + d)).

Fixpoint hex_of_nonneg (fuel : nat) (n : Z) (acc : string) : string :=
  match fuel with
  | O => String (hex_char (n mod 16)) acc
  | S fuel' =>
      if n <? 16 then String (hex_char n) acc
      else hex_of_nonneg fuel' (n / 16) (String (hex_char (n mod 16)) acc)
  end.

Fixpoint zeros (k : nat) : string :=
  match k with
  | O => EmptyString
  | S k' => String "0"%char (zeros k')
  end.

(** [format(v, '0Wx')]: lower-case hexadecimal, zero-padded to [width]
    characters, the sign of a negative number counted in the width. *)
Definition format_x (width : nat) (v : Z) : string :=
  let digits := hex_of_nonneg (Z.to_nat (Z.log2 (Z.abs v))) (Z.abs v) EmptyString in
  if v <? 0
  then String "-"%char
         (String.append (zeros (width - 1 - String.length digits)) digits)
  else String.append (zeros (width - String.length digits)) digits.

(** ** The curve constants of [py_ecc.secp256k1] and the second generator *)

Definition Point : Type := (Z * Z)%type.

Module secp256k1.
Definition P : Z := 2 ^ 256 - 2 ^ 32 - 977.
Definition N : Z :=
  0xFFFFFFFFFFFFFFFFFFFFFFFFFFFFFFFEBAAEDCE6AF48A03BBFD25E8CD0364141.
Definition G : Point :=
  (0x79BE667EF9DCBBAC55A06295CE870B07029BFCDB2DCE28D959F2815B16F81798,
   0x483ADA7726A3C4655DA4FBFC0E1108A8FD17B448A68554199C47D08FFB10D4B8).
End secp256k1.

Definition G2 : Point :=
  (0xb25b5ea8b8b230e5574fec0182e809e3455701323968c602ab56b458d0ba96bf,
   0x13edfe75e1c88e030eda220ffc74802144aec67c4e51cb49699d4401c122e19c).

(** Modelled from the spec: [util.validate_curve_point] is not in
    [ecdkg.py]; section 3 of the specification gives the test: a point is
    valid when it is the identity, which py_ecc writes (0, 0), or satisfies
    y^2 = x^3 + 7 modulo the field prime. *)
Definition on_curve (pt : Point) : bool :=
  let '(x, y) := pt in
  ((x =? 0) && (y =? 0))
  || ((y * y - (x * x * x + 7)) mod secp256k1.P =? 0).

Definition THRESHOLD_FACTOR : Q := 1 # 2.

(** ** Formatting attribute values *)

(** The values that reach [str.format] in [to_state_message]: integers and
    tuples. *)
#[local] Unset Elimination Schemes.
Inductive value : Type :=
| VInt (z : Z)
| VTuple (items : list value).
#[local] Set Elimination Schemes.

Definition value_of_point (pt : Point) : value :=
  VTuple [VInt (fst pt); VInt (snd pt)].

Definition value_of_points (pts : list Point) : value :=
  VTuple (map value_of_point pts).

(** [val[i]] *)
Definition getitem (val : value) (i : nat) : result value :=
  match val with
  | VInt _ => raise TypeError
  | VTuple items =>
      match nth_error items i with
      | Some x => ret x
      | None => raise IndexError
      end
  end.

(** [format(val, '064x')]: a tuple does not take a format specification. *)
Definition format_064x (val : value) : result string :=
  match val with
  | VInt z => ret (format_x 64 z)
  | VTuple _ => raise TypeError
  end.

(** ['{0[0]:064x}{0[1]:064x}'.format(val)], the fields rendered in order. *)
Definition format_point (val : value) : result string :=
  do a <- getitem val 0;
  do sa <- format_064x a;
  do b <- getitem val 1;
  do sb <- format_064x b;
  ret (String.append sa sb).

(** A tuple built by a generator that may raise. *)
Fixpoint tuple_of {A B : Type} (f : A -> result B) (l : list A)
  : result (list B) :=
  match l with
  | [] => ret []
  | x :: rest =>
      do y <- f x;
      do ys <- tuple_of f rest;
      ret (y :: ys)
  end.

(** [d[k] = v] on a dict kept as an association list in insertion order. *)
Fixpoint dict_set {V : Type} (k : string) (v : V) (d : list (string * V))
  : list (string * V) :=
  match d with
  | [] => [(k, v)]
  | (k', v') :: rest =>
      if String.eqb k k' then (k, v) :: rest else (k', v') :: dict_set k v rest
  end.

(** [if val is not None: msg[attr] = fmt(val)] *)
Definition set_if_present {A V : Type} (attr : string) (val : option A)
    (fmt : A -> result V) (msg : list (string * V))
  : result (list (string * V)) :=
  match val with
  | None => ret msg
  | Some v => do s <- fmt v; ret (dict_set attr s msg)
  end.

(** ** The data model *)

Inductive ECDKGPhase : Type :=
| uninitialized
| key_distribution
| key_verification
| key_check
| key_generation
| key_publication
| complete.

(** The integer value of the [IntEnum] member. *)
Definition phase_value (ph : ECDKGPhase) : Z :=
  match ph with
  | uninitialized => 0
  | key_distribution => 1
  | key_verification => 2
  | key_check => 3
  | key_generation => 4
  | key_publication => 5
  | complete => 6
  end.

Definition phase_name (ph : ECDKGPhase) : string :=
  match ph with
  | uninitialized => "uninitialized"
  | key_distribution => "key_distribution"
  | key_verification => "key_verification"
  | key_check => "key_check"
  | key_generation => "key_generation"
  | key_publication => "key_publication"
  | complete => "complete"
  end.

Definition phase_lt (a b : ECDKGPhase) : bool := phase_value a <? phase_value b.

(** An (r, s, v) triple. *)
Definition Signature : Type := (Z * Z * Z)%type.

Module ECDKGComplaint.
Record t : Type := mk {
  participant_id : Z;
  complainer_address : Z
}.
End ECDKGComplaint.

Module ECDKGParticipant.
Record t : Type := mk {
  id : Z;
  ecdkg_id : Z;
  eth_address : Z;
  encryption_key_part : option Point;
  decryption_key_part : option Z;
  verification_points : option (list Point);
  secret_share1 : option Z;
  secret_share2 : option Z;
  shares_signature : option Signature
}.

(** A row as the constructor [ECDKGParticipant(ecdkg_id=.., eth_address=..)]
    leaves it once it has its key. *)
Definition new (i sid address : Z) : t :=
  mk i sid address None None None None None None.

Definition set_encryption_key_part (v : Point) (p : t) : t :=
  mk (id p) (ecdkg_id p) (eth_address p) (Some v) (decryption_key_part p)
     (verification_points p) (secret_share1 p) (secret_share2 p)
     (shares_signature p).

Definition set_decryption_key_part (v : Z) (p : t) : t :=
  mk (id p) (ecdkg_id p) (eth_address p) (encryption_key_part p) (Some v)
     (verification_points p) (secret_share1 p) (secret_share2 p)
     (shares_signature p).

Definition set_verification_points (v : list Point) (p : t) : t :=
  mk (id p) (ecdkg_id p) (eth_address p) (encryption_key_part p)
     (decryption_key_part p) (Some v) (secret_share1 p) (secret_share2 p)
     (shares_signature p).

(** The three assignments that close the share loop. *)
Definition set_shares (s1 s2 : Z) (sig : Signature) (p : t) : t :=
  mk (id p) (ecdkg_id p) (eth_address p) (encryption_key_part p)
     (decryption_key_part p) (verification_points p) (Some s1) (Some s2)
     (Some sig).
Definition to_state_message (p : t) : result (list (string * string)) :=
  do msg <- set_if_present "encryption_key_part" (encryption_key_part p)
              (fun v => format_point (value_of_point v)) [];
  do msg <- set_if_present "verification_points" (verification_points p)
              (fun v => format_point (value_of_points v)) msg;
  ret msg.
End ECDKGParticipant.

Module ECDKG.
Record t : Type := mk {
  id : Z;
  decryption_condition : string;
  phase : ECDKGPhase;
  threshold : option Z;
  encryption_key : option Point;
  decryption_key : option Z;
  secret_poly1 : option (list Z);
  secret_poly2 : option (list Z);
  verification_points : option (list Point);
  encryption_key_part : option Point
}.

(** A row as [get_or_create_by_decryption_condition] creates it. *)
Definition new (i : Z) (cond : string) : t :=
  mk i cond uninitialized None None None None None None None.

Definition set_phase (ph : ECDKGPhase) (s : t) : t :=
  mk (id s) (decryption_condition s) ph (threshold s) (encryption_key s)
     (decryption_key s) (secret_poly1 s) (secret_poly2 s)
     (verification_points s) (encryption_key_part s).

Definition set_encryption_key (v : option Point) (s : t) : t :=
  mk (id s) (decryption_condition s) (phase s) (threshold s) v
     (decryption_key s) (secret_poly1 s) (secret_poly2 s)
     (verification_points s) (encryption_key_part s).

Definition set_decryption_key (v : Z) (s : t) : t :=
  mk (id s) (decryption_condition s) (phase s) (threshold s)
     (encryption_key s) (Some v) (secret_poly1 s) (secret_poly2 s)
     (verification_points s) (encryption_key_part s).

Definition set_threshold (v : Z) (s : t) : t :=
  mk (id s) (decryption_condition s) (phase s) (Some v) (encryption_key s)
     (decryption_key s) (secret_poly1 s) (secret_poly2 s)
     (verification_points s) (encryption_key_part s).

Definition set_secret_poly1 (v : list Z) (s : t) : t :=
  mk (id s) (decryption_condition s) (phase s) (threshold s)
     (encryption_key s) (decryption_key s) (Some v) (secret_poly2 s)
     (verification_points s) (encryption_key_part s).

Definition set_secret_poly2 (v : list Z) (s : t) : t :=
  mk (id s) (decryption_condition s) (phase s) (threshold s)
     (encryption_key s) (decryption_key s) (secret_poly1 s) (Some v)
     (verification_points s) (encryption_key_part s).

Definition set_verification_points (v : list Point) (s : t) : t :=
  mk (id s) (decryption_condition s) (phase s) (threshold s)
     (encryption_key s) (decryption_key s) (secret_poly1 s) (secret_poly2 s)
     (Some v) (encryption_key_part s).

Definition set_encryption_key_part (v : Point) (s : t) : t :=
  mk (id s) (decryption_condition s) (phase s) (threshold s)
     (encryption_key s) (decryption_key s) (secret_poly1 s) (secret_poly2 s)
     (verification_points s) (Some v).
(** [get_complaints_by]: the query has the single filter on the
    complainer; [rows] is the whole complaint table. *)
Definition get_complaints_by (s : t) (address : Z)
    (rows : list ECDKGComplaint.t) : list ECDKGComplaint.t :=
  List.filter (fun c => ECDKGComplaint.complainer_address c =? address) rows.

Inductive msg_value : Type :=
| MStr (s : string)
| MInt (z : Z)
| MPhase (ph : ECDKGPhase)
| MTuple (items : list string)
| MDict (d : list (string * list (string * string))).

(** [to_state_message]; [ps] is [self.participants]. *)
Definition to_state_message (own_address : Z) (s : t)
    (ps : list ECDKGParticipant.t) : result (list (string * msg_value)) :=
  let msg := [("address"%string, MStr (format_x 40 own_address))] in
  let msg := dict_set "decryption_condition" (MStr (decryption_condition s)) msg in
  let msg := dict_set "phase" (MPhase (phase s)) msg in
  do msg <- set_if_present "threshold" (threshold s) (fun v => ret (MInt v)) msg;
  do entries <- tuple_of
                  (fun p => do m <- ECDKGParticipant.to_state_message p;
                            ret (format_x 40 (ECDKGParticipant.eth_address p), m))
                  ps;
  let msg := dict_set "participants"
               (MDict (fold_left (fun d e => dict_set (fst e) (snd e) d) entries []))
               msg in
  do msg <- set_if_present "encryption_key" (encryption_key s)
              (fun v => do x <- format_point (value_of_point v); ret (MStr x)) msg;
  do msg <- set_if_present "encryption_key_part" (encryption_key_part s)
              (fun v => do x <- format_point (value_of_point v); ret (MStr x)) msg;
  do msg <- set_if_present "verification_points" (verification_points s)
              (fun v => do xs <- tuple_of
                                   (fun pt => format_point (value_of_point pt)) v;
                        ret (MTuple xs)) msg;
  ret msg.
End ECDKG.

(** The session object a handler runs on, with the participant and
    complaint tables behind it. *)
Record World : Type := mkWorld {
  self : ECDKG.t;
  participant_rows : list ECDKGParticipant.t;
  complaint_rows : list ECDKGComplaint.t
}.

(** [query.scalar()]: the only row, [None] without rows, an error with
    several. *)
Definition scalar {A : Type} (rows : list A) : result (option A) :=
  match rows with
  | [] => ret None
  | [x] => ret (Some x)
  | _ => raise MultipleResultsFound
  end.

(** The [participants] relationship of a session: the rows that carry its
    key. *)
Definition belongs (sid : Z) (p : ECDKGParticipant.t) : bool :=
  ECDKGParticipant.ecdkg_id p =? sid.

Definition participants_of (sid : Z) (rows : list ECDKGParticipant.t)
  : list ECDKGParticipant.t :=
  List.filter (belongs sid) rows.

Definition participants (w : World) : list ECDKGParticipant.t :=
  participants_of (ECDKG.id (self w)) (participant_rows w).

Definition next_id (rows : list ECDKGParticipant.t) : Z :=
  1 + fold_right Z.max 0 (map ECDKGParticipant.id rows).

Definition with_participant_rows (rows : list ECDKGParticipant.t) (w : World)
  : World :=
  mkWorld (self w) rows (complaint_rows w).

Definition with_complaint_rows (rows : list ECDKGComplaint.t) (w : World)
  : World :=
  mkWorld (self w) (participant_rows w) rows.

Definition with_self (s : ECDKG.t) (w : World) : World :=
  mkWorld s (participant_rows w) (complaint_rows w).

(** [for participant in self.participants: body]: the rows of the session
    are visited in table order and updated in place; the first exception
    stops the loop and leaves the rows visited so far updated. *)
Fixpoint for_each_participant (sid : Z)
    (body : ECDKGParticipant.t -> result ECDKGParticipant.t)
    (rows : list ECDKGParticipant.t)
  : list ECDKGParticipant.t * option exn :=
  match rows with
  | [] => ([], None)
  | p :: rest =>
      if belongs sid p then
        match body p with
        | inl e => (p :: rest, Some e)
        | inr p' =>
            let '(rest', r) := for_each_participant sid body rest in
            (p' :: rest', r)
        end
      else
        let '(rest', r) := for_each_participant sid body rest in
        (p :: rest', r)
  end.

(** [functools.reduce(f, seq)] without initial value. *)
Definition reduce {A : Type} (f : A -> A -> A) (l : list A) : result A :=
  match l with
  | [] => raise TypeError
  | x :: rest => ret (fold_left f rest x)
  end.

(** [pow(x, k, n)] for a non-negative exponent and a positive modulus. *)
Definition pow_mod (x : Z) (k : nat) (n : Z) : Z := (x ^ Z.of_nat k) mod n.

Definition point_eqb (a b : Point) : bool :=
  (fst a =? fst b) && (snd a =? snd b).

(** [random_polynomial(order)], drawing from the values that
    [util.random_private_value] returns from call number [start] on. *)
Definition random_polynomial (rng : nat -> Z) (start : nat) (order : Z)
  : list Z :=
  map rng (seq start (Z.to_nat order)).

Definition eval_polynomial (poly : list Z) (x : Z) : Z :=
  fold_left Z.add (imap (fun k c => c * pow_mod x k secp256k1.N) poly) 0
  mod secp256k1.N.

(** ** The replies of the peers and the other inputs of a run *)

Record Network : Type := mkNetwork {
  channels : list Z;
  random_private_value : nat -> Z;
  signed_secret_shares : gmap Z ((Z * Z) * Signature);
  verification_points_replies : gmap Z (list string);
  complaints_replies : gmap Z (list Z);
  encryption_key_parts : gmap Z string;
  dec_key_parts : gmap Z string
}.

(** ** The protocol engine *)

Section Engine.

(** [secp256k1.add] and [secp256k1.multiply] of py_ecc. *)
Variable add : Point -> Point -> Point.
Variable multiply : Point -> Z -> Point.

(** The helpers of [util] that the handlers call.  Each may raise. *)
Variable address_to_bytes : Z -> result (list Byte.byte).
Variable private_value_to_bytes : Z -> result (list Byte.byte).
Variable address_from_message_and_signature :
  list Byte.byte -> Signature -> result Z.

Variable sign_with_key : list Byte.byte -> Z -> result Signature.

(** The module-level [own_address] and [private_key]. *)
Variable own_address : Z.
Variable private_key : Z.

Definition public_share (a b : Z) : Point :=
  add (multiply secp256k1.G a) (multiply G2 b).

Definition generate_public_shares (poly1 poly2 : list Z)
  : result (list Point) :=
  if Nat.eqb (length poly1) (length poly2)
  then ret (map (fun ab => public_share (fst ab) (snd ab)) (combine poly1 poly2))
  else raise ValueError.

(** *** Uninitialized *)

Definition get_or_create_participant_by_address (sid address : Z)
    (rows : list ECDKGParticipant.t)
  : result (list ECDKGParticipant.t * ECDKGParticipant.t) :=
  do found <- scalar (List.filter
                        (fun p => belongs sid p
                                  && (ECDKGParticipant.eth_address p =? address))
                        rows);
  match found with
  | Some p => ret (rows, p)
  | None =>
      let p := ECDKGParticipant.new (next_id rows) sid address in
      ret (rows ++ [p], p)
  end.

Fixpoint create_participants (sid : Z) (addrs : list Z)
    (rows : list ECDKGParticipant.t)
  : list ECDKGParticipant.t * option exn :=
  match addrs with
  | [] => (rows, None)
  | addr :: rest =>
      match get_or_create_participant_by_address sid addr rows with
      | inl e => (rows, Some e)
      | inr (rows', _) => create_participants sid rest rows'
      end
  end.

(** [math.ceil(THRESHOLD_FACTOR * (n + 1))].  The product is exact in
    floating point for every count below 2^53. *)
Definition threshold_for (n : Z) : Z :=
  Qceiling (THRESHOLD_FACTOR * inject_Z (n + 1)).

Definition handle_uninitialized_phase (net : Network) (w : World)
  : World * option exn :=
  let sid := ECDKG.id (self w) in
  match create_participants sid (channels net) (participant_rows w) with
  | (rows, Some e) => (with_participant_rows rows w, Some e)
  | (rows, None) =>
      let w1 := with_participant_rows rows w in
      let th := threshold_for (Z.of_nat (length (participants w1))) in
      let s1 := ECDKG.set_threshold th (self w1) in
      let spoly1 := random_polynomial (random_private_value net) 0 th in
      let spoly2 :=
        random_polynomial (random_private_value net) (length spoly1) th in
      let s2 := ECDKG.set_secret_poly2 spoly2 (ECDKG.set_secret_poly1 spoly1 s1) in
      match spoly1 with
      | [] => (with_self s2 w1, Some IndexError)
      | a0 :: _ =>
          let s3 := ECDKG.set_encryption_key_part (multiply secp256k1.G a0) s2 in
          let vps := map (fun ab => public_share (fst ab) (snd ab))
                         (combine spoly1 spoly2) in
          let s4 := ECDKG.set_verification_points vps s3 in
          (with_self (ECDKG.set_phase key_distribution s4) w1, None)
      end
  end.

(** *** KeyDistribution *)

(** The body of the [try] block: the message the peer must have signed and
    the address recovered from its signature. *)
Definition recover_share_signer (cond : string) (share1 share2 : Z)
    (signature : Signature) : result Z :=
  do a <- address_to_bytes own_address;
  do b1 <- private_value_to_bytes share1;
  do b2 <- private_value_to_bytes share2;
  let msg_bytes :=
    (list_byte_of_string cond ++ a ++ list_byte_of_string "SECRETSHARES"
       ++ b1 ++ b2)%list in
  address_from_message_and_signature msg_bytes signature.

Definition store_secret_shares (cond : string)
    (replies : gmap Z ((Z * Z) * Signature)) (p : ECDKGParticipant.t)
  : result ECDKGParticipant.t :=
  let address := ECDKGParticipant.eth_address p in
  match replies !! address with
  | None => ret p
  | Some ((share1, share2), signature) =>
      match recover_share_signer cond share1 share2 signature with
      | inl ValueError => ret p
      | inl e => raise e
      | inr recovered_address =>
          if address =? recovered_address
          then ret (ECDKGParticipant.set_shares share1 share2 signature p)
          else ret p
      end
  end.

Definition store_verification_points (replies : gmap Z (list string))
    (p : ECDKGParticipant.t) : result ECDKGParticipant.t :=
  match replies !! ECDKGParticipant.eth_address p with
  | Some ptstrs =>
      do pts <- tuple_of parse_point ptstrs;
      ret (ECDKGParticipant.set_verification_points pts p)
  | None => ret p
  end.

Definition handle_key_distribution_phase (net : Network) (w : World)
  : World * option exn :=
  let sid := ECDKG.id (self w) in
  let cond := ECDKG.decryption_condition (self w) in
  match for_each_participant sid
          (store_secret_shares cond (signed_secret_shares net))
          (participant_rows w) with
  | (rows, Some e) => (with_participant_rows rows w, Some e)
  | (rows, None) =>
      match for_each_participant sid
              (store_verification_points (verification_points_replies net))
              rows with
      | (rows', Some e) => (with_participant_rows rows' w, Some e)
      | (rows', None) =>
          (with_self (ECDKG.set_phase key_verification (self w))
                     (with_participant_rows rows' w), None)
      end
  end.

(** *** KeyVerification *)

Definition get_or_create_complaint_by_complainer_address
    (pid address : Z) (rows : list ECDKGComplaint.t)
  : result (list ECDKGComplaint.t * ECDKGComplaint.t) :=
  do found <- scalar (List.filter
                        (fun c => (ECDKGComplaint.participant_id c =? pid)
                                  && (ECDKGComplaint.complainer_address c =? address))
                        rows);
  match found with
  | Some c => ret (rows, c)
  | None =>
      let c := ECDKGComplaint.mk pid address in
      ret (rows ++ [c], c)
  end.

(** The right-hand side of the share test; [enumerate(None)] and a
    [reduce] over no points both raise [TypeError]. *)
Definition verification_rhs (vps : option (list Point)) : result Point :=
  match vps with
  | None => raise TypeError
  | Some pts =>
      reduce add
        (imap (fun k ps => multiply ps (pow_mod own_address k secp256k1.N)) pts)
  end.

(** Whether the loop body reaches [continue]. *)
Definition shares_verified (p : ECDKGParticipant.t) : result bool :=
  match ECDKGParticipant.secret_share1 p, ECDKGParticipant.secret_share2 p with
  | Some share1, Some share2 =>
      let vlhs := public_share share1 share2 in
      do vrhs <- verification_rhs (ECDKGParticipant.verification_points p);
      ret (point_eqb vlhs vrhs)
  | _, _ => ret false
  end.

Fixpoint verify_participants (ps : list ECDKGParticipant.t)
    (rows : list ECDKGComplaint.t) : list ECDKGComplaint.t * option exn :=
  match ps with
  | [] => (rows, None)
  | p :: rest =>
      match shares_verified p with
      | inl e => (rows, Some e)
      | inr true => verify_participants rest rows
      | inr false =>
          match get_or_create_complaint_by_complainer_address
                  (ECDKGParticipant.id p) own_address rows with
          | inl e => (rows, Some e)
          | inr (rows', _) => verify_participants rest rows'
          end
      end
  end.

Definition handle_key_verification_phase (w : World) : World * option exn :=
  match verify_participants (participants w) (complaint_rows w) with
  | (rows, Some e) => (with_complaint_rows rows w, Some e)
  | (rows, None) =>
      (with_self (ECDKG.set_phase key_check (self w))
                 (with_complaint_rows rows w), None)
  end.

(** *** KeyCheck: the replies are looked up and nothing is done with them *)

Definition handle_key_check_phase (net : Network) (w : World)
  : World * option exn :=
  (with_self (ECDKG.set_phase key_generation (self w)) w, None).

(** *** KeyGeneration *)

Definition store_encryption_key_part (replies : gmap Z string)
    (p : ECDKGParticipant.t) : result ECDKGParticipant.t :=
  let address := ECDKGParticipant.eth_address p in
  match replies !! address with
  | Some s =>
      do ekp <- parse_point s;
      ret (ECDKGParticipant.set_encryption_key_part ekp p)
  | None =>
      raise (ProtocolError
               (String.append "missing encryption_key_part from address "
                              (format_x 40 address)))
  end.

(** [secp256k1.add] fails on [None] operands. *)
Definition add_attr (a b : option Point) : result (option Point) :=
  match a, b with
  | Some x, Some y => ret (Some (add x y))
  | _, _ => raise TypeError
  end.

(** [functools.reduce(secp256k1.add, seq, initial)] *)
Fixpoint reduce_add (l : list (option Point)) (initial : option Point)
  : result (option Point) :=
  match l with
  | [] => ret initial
  | x :: rest =>
      do acc <- add_attr initial x;
      reduce_add rest acc
  end.

Definition handle_key_generation_phase (net : Network) (w : World)
  : World * option exn :=
  let sid := ECDKG.id (self w) in
  match for_each_participant sid
          (store_encryption_key_part (encryption_key_parts net))
          (participant_rows w) with
  | (rows, Some e) => (with_participant_rows rows w, Some e)
  | (rows, None) =>
      let w1 := with_participant_rows rows w in
      match reduce_add (map ECDKGParticipant.encryption_key_part (participants w1))
                       (ECDKG.encryption_key_part (self w1)) with
      | inl e => (w1, Some e)
      | inr ek =>
          (with_self (ECDKG.set_phase key_publication
                        (ECDKG.set_encryption_key ek (self w1))) w1, None)
      end
  end.

(** *** KeyPublication *)

Definition store_decryption_key_part (replies : gmap Z string)
    (p : ECDKGParticipant.t) : result ECDKGParticipant.t :=
  match replies !! ECDKGParticipant.eth_address p with
  | Some s =>
      do v <- int16 s;
      ret (ECDKGParticipant.set_decryption_key_part v p)
  | None => raise (ProtocolError "missing decryption key part!")
  end.

(** [sum(seq)] over attributes that may be [None]. *)
Fixpoint sum_attr (l : list (option Z)) (acc : Z) : result Z :=
  match l with
  | [] => ret acc
  | Some x :: rest => sum_attr rest (acc + x)
  | None :: _ => raise TypeError
  end.

(** [poly[0]] on an attribute. *)
Definition first_coefficient (poly : option (list Z)) : result Z :=
  match poly with
  | None => raise TypeError
  | Some [] => raise IndexError
  | Some (c :: _) => ret c
  end.

Definition handle_key_publication_phase (net : Network) (w : World)
  : World * option exn :=
  let sid := ECDKG.id (self w) in
  match for_each_participant sid
          (store_decryption_key_part (dec_key_parts net))
          (participant_rows w) with
  | (rows, Some e) => (with_participant_rows rows w, Some e)
  | (rows, None) =>
      let w1 := with_participant_rows rows w in
      match (do total <- sum_attr (map ECDKGParticipant.decryption_key_part
                                       (participants w1)) 0;
             do c0 <- first_coefficient (ECDKG.secret_poly1 (self w1));
             ret ((total + c0) mod secp256k1.N)) with
      | inl e => (w1, Some e)
      | inr dk =>
          (with_self (ECDKG.set_phase complete
                        (ECDKG.set_decryption_key dk (self w1))) w1, None)
      end
  end.

(** *** The reply to a peer that asks for its shares *)

(** [eval_polynomial] on an attribute: [enumerate(None)] raises. *)
Definition eval_attr (poly : option (list Z)) (x : Z) : result Z :=
  match poly with
  | None => raise TypeError
  | Some coefficients => ret (eval_polynomial coefficients x)
  end.

Definition get_signed_secret_shares (s : ECDKG.t) (address : Z)
  : result ((Z * Z) * Signature) :=
  do share1 <- eval_attr (ECDKG.secret_poly1 s) address;
  do share2 <- eval_attr (ECDKG.secret_poly2 s) address;
  do a <- address_to_bytes address;
  do b1 <- private_value_to_bytes share1;
  do b2 <- private_value_to_bytes share2;
  let msg_bytes :=
    (list_byte_of_string (ECDKG.decryption_condition s) ++ a
       ++ list_byte_of_string "SECRETSHARES" ++ b1 ++ b2)%list in
  do signature <- sign_with_key msg_bytes private_key;
  ret ((share1, share2), signature).

(** *** The driver *)

(** [getattr(self, 'handle_{}_phase'.format(self.phase.name))()]: there is
    no handler for the last phase. *)
Definition handle_phase (net : Network) (w : World) : World * option exn :=
  match ECDKG.phase (self w) with
  | uninitialized => handle_uninitialized_phase net w
  | key_distribution => handle_key_distribution_phase net w
  | key_verification => handle_key_verification_phase w
  | key_check => handle_key_check_phase net w
  | key_generation => handle_key_generation_phase net w
  | key_publication => handle_key_publication_phase net w
  | complete => (w, Some AttributeError)
  end.

(** [run_until_phase]; [fuel] bounds the iterations of the [while] loop
    and [None] tells that it ran out. *)
Fixpoint run_until_phase (fuel : nat) (net : Network)
    (target_phase : ECDKGPhase) (w : World) : option (World * option exn) :=
  if phase_lt (ECDKG.phase (self w)) target_phase then
    match fuel with
    | O => None
    | S fuel' =>
        match handle_phase net w with
        | (w', Some e) => Some (w', Some e)
        | (w', None) => run_until_phase fuel' net target_phase w'
        end
    end
  else Some (w, None).

End Engine.

(** * Properties *)

(** ** Generic facts about the combinators *)

Lemma bind_inr {A B : Type} (r : result A) (k : A -> result B) (b : B) :
  bind r k = inr b -> exists a, r = inr a /\ k a = inr b.
Proof. destruct r as [e|a]; simpl; [discriminate | eauto]. Qed.

Lemma tuple_of_inr {A B : Type} (f : A -> result B) (l : list A) (ys : list B) :
  tuple_of f l = inr ys -> Forall2 (fun x y => f x = inr y) l ys.
Proof.
  revert ys. induction l as [|x l IH]; simpl; intros ys H.
  - injection H as <-. constructor.
  - apply bind_inr in H as (y & Hy & H).
    apply bind_inr in H as (ys' & Hys & H).
    injection H as <-. constructor; auto.
Qed.

Lemma tuple_of_inl {A B : Type} (f : A -> result B) (l : list A) (x : A) :
  In x l -> (exists e, f x = inl e) -> exists e, tuple_of f l = inl e.
Proof.
  intros Hin [e He]. induction l as [|a l IH]; [destruct Hin|].
  simpl. destruct (f a) as [e'|y] eqn:Hfa; simpl; [eauto|].
  destruct Hin as [->|Hin]; [congruence|].
  destruct (IH Hin) as [e' ->]. simpl. eauto.
Qed.

(** ** Complaints of a complainer *)

(** C9: [get_complaints_by] returns exactly the stored complaints whose
    complainer is the given address, whatever session it is called on: the
    result is the same for every session, and it can hold a complaint against
    a participant of another session. *)
Theorem get_complaints_by_ignores_session :
  (forall s address rows c,
      In c (ECDKG.get_complaints_by s address rows)
      <-> In c rows /\ ECDKGComplaint.complainer_address c = address)
  /\ (forall s s' address rows,
         ECDKG.get_complaints_by s address rows
         = ECDKG.get_complaints_by s' address rows)
  /\ (let w := mkWorld (ECDKG.new 1 "a")
                  [ECDKGParticipant.new 10 1 100; ECDKGParticipant.new 20 2 200]
                  [ECDKGComplaint.mk 10 7; ECDKGComplaint.mk 20 7;
                   ECDKGComplaint.mk 20 8] in
      ECDKG.get_complaints_by (self w) 7 (complaint_rows w)
      = [ECDKGComplaint.mk 10 7; ECDKGComplaint.mk 20 7]
      /\ participants w = [ECDKGParticipant.new 10 1 100]).
Proof.
  split; [|split].
  - intros s address rows c. unfold ECDKG.get_complaints_by.
    rewrite List.filter_In, Z.eqb_eq. reflexivity.
  - reflexivity.
  - split; reflexivity.
Qed.

(** ** State messages *)

Lemma format_point_of_point (pt : Point) :
  format_point (value_of_point pt)
  = inr (String.append (format_x 64 (fst pt)) (format_x 64 (snd pt))).
Proof. reflexivity. Qed.

Lemma format_point_of_points (pts : list Point) :
  format_point (value_of_points pts)
  = inl (match pts with [] => IndexError | _ :: _ => TypeError end).
Proof. destruct pts; reflexivity. Qed.

Lemma participant_message_raises (p : ECDKGParticipant.t) (pts : list Point) :
  ECDKGParticipant.verification_points p = Some pts ->
  ECDKGParticipant.to_state_message p
  = inl (match pts with [] => IndexError | _ :: _ => TypeError end).
Proof.
  intros Hv. unfold ECDKGParticipant.to_state_message. rewrite Hv.
  destruct (ECDKGParticipant.encryption_key_part p) as [pt|]; simpl;
    destruct pts; reflexivity.
Qed.

(** C10: the state message of a participant whose verification points are
    set raises ([TypeError] on a non-empty tuple, whose first item is a point
    and not an integer; [IndexError] on the empty one); hence the state
    message of a session raises as soon as one of its participants has them
    set; and a participant message that is returned holds at most the
    [encryption_key_part] entry. *)
Theorem to_state_message_raises_on_verification_points :
  (forall p pts,
      ECDKGParticipant.verification_points p = Some pts ->
      ECDKGParticipant.to_state_message p
      = inl (match pts with [] => IndexError | _ :: _ => TypeError end))
  /\ (forall own_address s ps p pts,
         In p ps ->
         ECDKGParticipant.verification_points p = Some pts ->
         exists e, ECDKG.to_state_message own_address s ps = inl e)
  /\ (forall p msg,
         ECDKGParticipant.to_state_message p = inr msg ->
         ECDKGParticipant.verification_points p = None
         /\ match ECDKGParticipant.encryption_key_part p with
            | None => msg = []
            | Some pt =>
                msg = [("encryption_key_part"%string,
                        String.append (format_x 64 (fst pt)) (format_x 64 (snd pt)))]
            end).
Proof.
  split; [|split].
  - exact participant_message_raises.
  - intros own s ps p pts Hin Hv. unfold ECDKG.to_state_message.
    destruct (set_if_present "threshold" _ _ _) as [e|msg]; simpl; [eauto|].
    destruct (tuple_of_inl
                (fun p => do m <- ECDKGParticipant.to_state_message p;
                          ret (format_x 40 (ECDKGParticipant.eth_address p), m))
                ps p Hin) as [e ->]; simpl; [|eauto].
    rewrite (participant_message_raises p pts Hv). simpl. eauto.
  - intros p msg H.
    destruct (ECDKGParticipant.verification_points p) as [pts|] eqn:Hv.
    + rewrite (participant_message_raises p pts Hv) in H. discriminate.
    + split; [reflexivity|]. unfold ECDKGParticipant.to_state_message in H.
      rewrite Hv in H.
      destruct (ECDKGParticipant.encryption_key_part p) as [pt|]; simpl in H;
        injection H as <-; reflexivity.
Qed.

(** ** The uniqueness constraints of the tables *)

(** [UniqueConstraint('ecdkg_id', 'eth_address')] *)
Definition participant_key (p : ECDKGParticipant.t) : Z * Z :=
  (ECDKGParticipant.ecdkg_id p, ECDKGParticipant.eth_address p).

Definition unique_participants (rows : list ECDKGParticipant.t) : Prop :=
  List.NoDup (map participant_key rows).

(** [UniqueConstraint('participant_id', 'complainer_address')] *)
Definition complaint_key (c : ECDKGComplaint.t) : Z * Z :=
  (ECDKGComplaint.participant_id c, ECDKGComplaint.complainer_address c).

Definition unique_complaints (rows : list ECDKGComplaint.t) : Prop :=
  List.NoDup (map complaint_key rows).

Section Queries.
Context {A : Type} (key : A -> Z * Z).

Definition has_key (k : Z * Z) (x : A) : bool :=
  (fst (key x) =? fst k) && (snd (key x) =? snd k).

Lemma has_key_true k x : has_key k x = true <-> key x = k.
Proof.
  unfold has_key. rewrite andb_true_iff, !Z.eqb_eq.
  destruct (key x), k; simpl. split; [intros []|intros [= ]]; subst; auto.
Qed.

Lemma filter_absent k rows :
  ~ In k (map key rows) -> List.filter (has_key k) rows = [].
Proof.
  induction rows as [|x rows IH]; simpl; intros Hn; [reflexivity|].
  destruct (has_key k x) eqn:Hk.
  - apply has_key_true in Hk. tauto.
  - apply IH. tauto.
Qed.

(** Under the constraint a keyed query yields at most one row. *)
Lemma filter_unique k rows :
  List.NoDup (map key rows) ->
  List.filter (has_key k) rows = []
  \/ exists x, List.filter (has_key k) rows = [x] /\ In x rows /\ key x = k.
Proof.
  induction rows as [|x rows IH]; simpl; intros Hnd; [auto|].
  inversion Hnd as [|? ? Hx Hnd']; subst.
  destruct (has_key k x) eqn:Hk.
  - apply has_key_true in Hk. right. exists x.
    rewrite filter_absent by (rewrite <- Hk; exact Hx). auto.
  - destruct (IH Hnd') as [->|(y & -> & Hy & Hky)]; [auto|].
    right. exists y. auto.
Qed.

Lemma filter_nil_absent k rows :
  List.filter (has_key k) rows = [] -> ~ In k (map key rows).
Proof.
  induction rows as [|x rows IH]; simpl; [tauto|].
  destruct (has_key k x) eqn:Hk; [discriminate|].
  intros H [Hx|Hin]; [|exact (IH H Hin)].
  apply has_key_true in Hx. congruence.
Qed.
End Queries.

Lemma threshold_for_half (n : Z) : threshold_for n = (n + 2) / 2.
Proof.
  unfold threshold_for, THRESHOLD_FACTOR, Qceiling, Qfloor, Qopp, Qmult, inject_Z.
  simpl. Z.div_mod_to_equations. lia.
Qed.

Lemma threshold_for_pos (n : Z) : 0 <= n -> 1 <= threshold_for n.
Proof. intros Hn. rewrite threshold_for_half. Z.div_mod_to_equations. lia. Qed.

Lemma random_polynomial_length rng start order :
  length (random_polynomial rng start order) = Z.to_nat order.
Proof. unfold random_polynomial. now rewrite length_map, length_seq. Qed.

Lemma in_participants_of sid p rows :
  In p (participants_of sid rows)
  <-> In p rows /\ ECDKGParticipant.ecdkg_id p = sid.
Proof.
  unfold participants_of, belongs. now rewrite List.filter_In, Z.eqb_eq.
Qed.

Lemma address_in_participants_of sid a rows :
  In a (map ECDKGParticipant.eth_address (participants_of sid rows))
  <-> In (sid, a) (map participant_key rows).
Proof.
  rewrite !in_map_iff. split.
  - intros (p & <- & Hp). apply in_participants_of in Hp as [Hp <-].
    exists p. auto.
  - intros (p & [= <- <-] & Hp). exists p. split; [reflexivity|].
    apply in_participants_of. auto.
Qed.

Lemma unique_addresses sid rows :
  unique_participants rows ->
  List.NoDup (map ECDKGParticipant.eth_address (participants_of sid rows)).
Proof.
  unfold unique_participants.
  induction rows as [|p rows IH]; simpl; intros Hnd; [constructor|].
  inversion Hnd as [|? ? Hp Hnd']; subst.
  unfold belongs. destruct (Z.eqb_spec (ECDKGParticipant.ecdkg_id p) sid) as [<-|Hne].
  - simpl. constructor; [|auto].
    intros Hin. apply address_in_participants_of in Hin. exact (Hp Hin).
  - auto.
Qed.

(** *** Creating the participants *)

Lemma get_or_create_participant_unique sid a rows :
  unique_participants rows ->
  exists rows' p,
    get_or_create_participant_by_address sid a rows = inr (rows', p)
    /\ unique_participants rows'
    /\ (forall k, In k (map participant_key rows')
                  <-> In k (map participant_key rows) \/ k = (sid, a)).
Proof.
  intros Hu. unfold get_or_create_participant_by_address.
  change (List.filter _ rows)
    with (List.filter (has_key participant_key (sid, a)) rows).
  destruct (filter_unique participant_key (sid, a) rows Hu)
    as [Hnil|(p & Hone & Hin & Hk)].
  - rewrite Hnil. simpl. eexists _, _. split; [reflexivity|].
    apply filter_nil_absent in Hnil.
    unfold unique_participants. rewrite map_app. simpl. split.
    + apply List.NoDup_app; auto.
      * repeat constructor. simpl. tauto.
      * intros k Hk [<-|[]]. auto.
    + intros k. rewrite in_app_iff. simpl.
      change (participant_key (ECDKGParticipant.new (next_id rows) sid a))
        with (sid, a).
      intuition congruence.
  - rewrite Hone. simpl. eexists _, _. split; [reflexivity|].
    split; [assumption|]. intros k. split; [auto|].
    intros [Hk'| ->]; [assumption|]. rewrite <- Hk. now apply in_map.
Qed.

Lemma create_participants_unique sid addrs rows :
  unique_participants rows ->
  exists rows',
    create_participants sid addrs rows = (rows', None)
    /\ unique_participants rows'
    /\ (forall k, In k (map participant_key rows')
                  <-> In k (map participant_key rows)
                      \/ exists a, In a addrs /\ k = (sid, a)).
Proof.
  revert rows. induction addrs as [|a addrs IH]; simpl; intros rows Hu.
  - exists rows. repeat split; auto. intros [H|(a & [] & _)]. exact H.
  - destruct (get_or_create_participant_unique sid a rows Hu)
      as (rows1 & p & -> & Hu1 & Hk1).
    destruct (IH rows1 Hu1) as (rows' & -> & Hu' & Hk').
    exists rows'. repeat split; auto.
    + intros Hk. apply Hk' in Hk as [Hk|(b & Hb & ->)].
      * apply Hk1 in Hk as [Hk| ->]; eauto.
      * eauto.
    + intros [Hk|(b & [<-|Hb] & ->)]; apply Hk'.
      * left. apply Hk1. auto.
      * left. apply Hk1. auto.
      * eauto.
Qed.

(** In a session without rows, one row is created per channel. *)
Lemma create_participants_count sid addrs rows rows' :
  unique_participants rows ->
  participants_of sid rows = [] ->
  List.NoDup addrs ->
  create_participants sid addrs rows = (rows', None) ->
  length (participants_of sid rows') = length addrs.
Proof.
  intros Hu Hnone Hnd Hrun.
  destruct (create_participants_unique sid addrs rows Hu)
    as (rows1 & Hrun1 & Hu1 & Hk1).
  rewrite Hrun in Hrun1. injection Hrun1 as <-.
  rewrite <- (length_map ECDKGParticipant.eth_address).
  apply Permutation.Permutation_length, Permutation.NoDup_Permutation;
    [now apply unique_addresses | assumption |].
  intros a. rewrite address_in_participants_of, Hk1. split.
  - intros [Hin|(b & Hb & [= ->])]; [|assumption].
    apply address_in_participants_of in Hin. rewrite Hnone in Hin.
    destruct Hin.
  - eauto.
Qed.

Lemma get_or_create_complaint_unique pid a rows :
  unique_complaints rows ->
  exists rows' c,
    get_or_create_complaint_by_complainer_address pid a rows = inr (rows', c)
    /\ unique_complaints rows'
    /\ (forall k, In k (map complaint_key rows')
                  <-> In k (map complaint_key rows) \/ k = (pid, a)).
Proof.
  intros Hu. unfold get_or_create_complaint_by_complainer_address.
  change (List.filter _ rows)
    with (List.filter (has_key complaint_key (pid, a)) rows).
  destruct (filter_unique complaint_key (pid, a) rows Hu)
    as [Hnil|(c & Hone & Hin & Hk)].
  - rewrite Hnil. simpl. eexists _, _. split; [reflexivity|].
    apply filter_nil_absent in Hnil.
    unfold unique_complaints. rewrite map_app. simpl. split.
    + apply List.NoDup_app; auto.
      * repeat constructor. simpl. tauto.
      * intros k Hk [<-|[]]. auto.
    + intros k. rewrite in_app_iff. simpl.
      change (complaint_key (ECDKGComplaint.mk pid a)) with (pid, a).
      split; [intros [H|[<-|[]]]|intros [H| ->]]; auto.
  - rewrite Hone. simpl. eexists _, _. split; [reflexivity|].
    split; [assumption|]. intros k. split; [auto|].
    intros [Hk'| ->]; [assumption|]. rewrite <- Hk. now apply in_map.
Qed.

Section EngineFacts.

Set Default Proof Using "Type".

Variable add : Point -> Point -> Point.
Variable multiply : Point -> Z -> Point.
Variable address_to_bytes : Z -> result (list Byte.byte).
Variable private_value_to_bytes : Z -> result (list Byte.byte).
Variable address_from_message_and_signature :
  list Byte.byte -> Signature -> result Z.
Variable own_address : Z.

(** *** The uninitialized phase *)

(** The fields the uninitialized phase commits the node to. *)
Definition own_contribution (s : ECDKG.t)
  : option Z * option (list Z) * option (list Z) * option (list Point) :=
  (ECDKG.threshold s, ECDKG.secret_poly1 s, ECDKG.secret_poly2 s,
   ECDKG.verification_points s).

(** The invariant of the data model: the three tuples have [threshold]
    items and every verification point commits to the pair of
    coefficients of its index. *)
Definition commitments_valid (s : ECDKG.t) : Prop :=
  exists th poly1 poly2 vps,
    own_contribution s = (Some th, Some poly1, Some poly2, Some vps)
    /\ Z.of_nat (length poly1) = th
    /\ Z.of_nat (length poly2) = th
    /\ Z.of_nat (length vps) = th
    /\ forall k : nat,
        Z.of_nat k < th ->
        exists a b,
          poly1 !! k = Some a /\ poly2 !! k = Some b
          /\ vps !! k = Some (add (multiply secp256k1.G a) (multiply G2 b)).

Lemma lookup_map_combine {X Y W : Type} (f : X * Y -> W) (l1 : list X)
    (l2 : list Y) (k : nat) :
  length l1 = length l2 -> (k < length l1)%nat ->
  exists a b,
    l1 !! k = Some a /\ l2 !! k = Some b
    /\ map f (combine l1 l2) !! k = Some (f (a, b)).
Proof.
  revert l2 k. induction l1 as [|x l1 IH]; intros [|y l2] k Hlen Hk;
    simpl in *; try lia.
  destruct k as [|k]; simpl; [eauto|].
  apply IH; lia.
Qed.

(** What the handler does when the participant table honours its
    constraint: it creates the missing rows and returns normally. *)
Lemma handle_uninitialized_phase_run net w :
  unique_participants (participant_rows w) ->
  exists rows a0 rest,
    let sid := ECDKG.id (self w) in
    let th := threshold_for (Z.of_nat (length (participants_of sid rows))) in
    let rng := random_private_value net in
    let spoly1 := random_polynomial rng 0 th in
    let spoly2 := random_polynomial rng (length spoly1) th in
    create_participants sid (channels net) (participant_rows w) = (rows, None)
    /\ unique_participants rows
    /\ spoly1 = a0 :: rest
    /\ handle_uninitialized_phase add multiply net w
       = (mkWorld
            (ECDKG.set_phase key_distribution
               (ECDKG.set_verification_points
                  (map (fun ab => public_share add multiply (fst ab) (snd ab))
                       (combine spoly1 spoly2))
                  (ECDKG.set_encryption_key_part (multiply secp256k1.G a0)
                     (ECDKG.set_secret_poly2 spoly2
                        (ECDKG.set_secret_poly1 spoly1
                           (ECDKG.set_threshold th (self w)))))))
            rows (complaint_rows w), None).
Proof.
  intros Hu.
  destruct (create_participants_unique (ECDKG.id (self w)) (channels net)
              (participant_rows w) Hu) as (rows & Hrun & Hu' & _).
  set (th := threshold_for
               (Z.of_nat (length (participants_of (ECDKG.id (self w)) rows)))).
  assert (Hth : 1 <= th) by (apply threshold_for_pos; lia).
  destruct (random_polynomial (random_private_value net) 0 th)
    as [|a0 rest] eqn:Hpoly.
  { apply (f_equal (@length Z)) in Hpoly.
    rewrite random_polynomial_length in Hpoly. simpl in Hpoly. lia. }
  exists rows, a0, rest. cbv zeta. fold th. rewrite Hpoly.
  repeat split; auto.
  unfold handle_uninitialized_phase. rewrite Hrun. cbv zeta.
  unfold participants. simpl self. simpl participant_rows. fold th.
  rewrite Hpoly. reflexivity.
Qed.

(** C6: the uninitialized handler sets the threshold to the ceiling of
    half of n + 1, that is to (n + 2) div 2, n being the number of
    participant rows of the session (one per peer, the node itself has
    none; one per channel when the session had no rows); with 4 of them the
    threshold is 3; both polynomials and the tuple of verification points
    have [threshold] items. *)
Theorem uninitialized_threshold net w :
  unique_participants (participant_rows w) ->
  exists w',
    handle_uninitialized_phase add multiply net w = (w', None)
    /\ let n := Z.of_nat (length (participants w')) in
       ECDKG.threshold (self w')
       = Some (Qceiling (THRESHOLD_FACTOR * inject_Z (n + 1)))
       /\ ECDKG.threshold (self w') = Some ((n + 2) / 2)
       /\ (participants w = [] -> List.NoDup (channels net) ->
           n = Z.of_nat (length (channels net)))
       /\ (n = 4 -> ECDKG.threshold (self w') = Some 3)
       /\ exists poly1 poly2 vps,
           ECDKG.secret_poly1 (self w') = Some poly1
           /\ ECDKG.secret_poly2 (self w') = Some poly2
           /\ ECDKG.verification_points (self w') = Some vps
           /\ ECDKG.threshold (self w') = Some (Z.of_nat (length poly1))
           /\ length poly2 = length poly1
           /\ length vps = length poly1.
Proof.
  intros Hu.
  destruct (handle_uninitialized_phase_run net w Hu)
    as (rows & a0 & rest & Hrun & Hu' & Hpoly & Hres).
  cbv zeta in *. eexists. split; [exact Hres|].
  unfold participants.
  cbn [self participant_rows ECDKG.id ECDKG.threshold ECDKG.secret_poly1
       ECDKG.secret_poly2 ECDKG.verification_points ECDKG.set_phase
       ECDKG.set_verification_points ECDKG.set_encryption_key_part
       ECDKG.set_secret_poly2 ECDKG.set_secret_poly1 ECDKG.set_threshold].
  set (n := Z.of_nat (length (participants_of (ECDKG.id (self w)) rows))) in *.
  assert (Hth : 1 <= threshold_for n) by (apply threshold_for_pos; lia).
  split; [reflexivity|]. split; [f_equal; apply threshold_for_half|].
  split; [|split].
  - intros Hnone Hnd. unfold n. f_equal.
    now apply (create_participants_count _ _ (participant_rows w)).
  - intros ->. reflexivity.
  - eexists _, _, _. repeat split.
    + now rewrite random_polynomial_length, Z2Nat.id by lia.
    + now rewrite !random_polynomial_length.
    + rewrite length_map, length_combine, !random_polynomial_length. lia.
Qed.

Ltac break_handler :=
  repeat match goal with
    | |- context [match ?x with _ => _ end] => destruct x eqn:?
    end.

Ltac break_hyp H :=
  repeat match type of H with
    | context [match ?x with _ => _ end] => destruct x eqn:?
    end.

Lemma key_distribution_keeps_contribution net w :
  own_contribution
    (self (fst (handle_key_distribution_phase address_to_bytes
                  private_value_to_bytes address_from_message_and_signature
                  own_address net w)))
  = own_contribution (self w).
Proof. unfold handle_key_distribution_phase. break_handler; reflexivity. Qed.

Lemma key_verification_keeps_contribution w :
  own_contribution
    (self (fst (handle_key_verification_phase add multiply own_address w)))
  = own_contribution (self w).
Proof. unfold handle_key_verification_phase. break_handler; reflexivity. Qed.

Lemma key_check_keeps_contribution net w :
  own_contribution (self (fst (handle_key_check_phase net w)))
  = own_contribution (self w).
Proof. reflexivity. Qed.

Lemma key_generation_keeps_contribution net w :
  own_contribution (self (fst (handle_key_generation_phase add net w)))
  = own_contribution (self w).
Proof. unfold handle_key_generation_phase. break_handler; reflexivity. Qed.

Lemma key_publication_keeps_contribution net w :
  own_contribution (self (fst (handle_key_publication_phase net w)))
  = own_contribution (self w).
Proof. unfold handle_key_publication_phase. break_handler; reflexivity. Qed.

(** C5: once the uninitialized handler has run, both polynomials and the
    tuple of verification points have [threshold] items and the point of
    index k is secret_poly1[k].G + secret_poly2[k].H; none of the later
    handlers writes to these fields, whether it returns or raises. *)
Theorem commitments_established_and_kept :
  (forall net w,
      unique_participants (participant_rows w) ->
      exists w',
        handle_uninitialized_phase add multiply net w = (w', None)
        /\ commitments_valid (self w'))
  /\ (forall net w,
         let run :=
           [handle_key_distribution_phase address_to_bytes
              private_value_to_bytes address_from_message_and_signature
              own_address net;
            handle_key_verification_phase add multiply own_address;
            handle_key_check_phase net;
            handle_key_generation_phase add net;
            handle_key_publication_phase net] in
         forall handler,
           In handler run ->
           own_contribution (self (fst (handler w))) = own_contribution (self w)
           /\ (commitments_valid (self w) ->
               commitments_valid (self (fst (handler w))))).
Proof.
  split.
  - intros net w Hu.
    destruct (handle_uninitialized_phase_run net w Hu)
      as (rows & a0 & rest & Hrun & Hu' & Hpoly & Hres).
    cbv zeta in *. eexists. split; [exact Hres|].
    set (th := threshold_for _) in *.
    assert (Hth : 1 <= th) by (apply threshold_for_pos; lia).
    set (spoly1 := random_polynomial _ 0 th) in *.
    set (spoly2 := random_polynomial _ (length spoly1) th) in *.
    assert (Hl1 : length spoly1 = Z.to_nat th)
      by apply random_polynomial_length.
    assert (Hl2 : length spoly2 = Z.to_nat th)
      by apply random_polynomial_length.
    exists th, spoly1, spoly2,
      (map (fun ab => public_share add multiply (fst ab) (snd ab))
           (combine spoly1 spoly2)).
    split; [reflexivity|].
    rewrite length_map, length_combine, Hl1, Hl2, Nat.min_id, Z2Nat.id by lia.
    repeat split. intros k Hk.
    destruct (lookup_map_combine
                (fun ab => public_share add multiply (fst ab) (snd ab))
                spoly1 spoly2 k) as (a & b & Ha & Hb & Hv); [lia|lia|].
    exists a, b. auto.
  - intros net w run handler Hin.
    assert (Hkeep : own_contribution (self (fst (handler w)))
                    = own_contribution (self w)).
    { simpl in Hin.
      destruct Hin as [<-|[<-|[<-|[<-|[<-|[]]]]]].
      - apply key_distribution_keeps_contribution.
      - apply key_verification_keeps_contribution.
      - apply key_check_keeps_contribution.
      - apply key_generation_keeps_contribution.
      - apply key_publication_keeps_contribution. }
    split; [exact Hkeep|].
    unfold commitments_valid. now rewrite Hkeep.
Qed.

(** *** The phase only advances *)

Definition next_phase (ph : ECDKGPhase) : ECDKGPhase :=
  match ph with
  | uninitialized => key_distribution
  | key_distribution => key_verification
  | key_verification => key_check
  | key_check => key_generation
  | key_generation => key_publication
  | key_publication => complete
  | complete => complete
  end.

#[local] Abbreviation handle := (handle_phase add multiply address_to_bytes
                      private_value_to_bytes
                      address_from_message_and_signature own_address).
#[local] Abbreviation run := (run_until_phase add multiply address_to_bytes
                   private_value_to_bytes
                   address_from_message_and_signature own_address).

(** The handler of the current phase moves the session to the next phase
    when it returns and leaves the phase alone when it raises; the last
    phase has no handler. *)
Lemma handle_phase_advances net w w' r :
  handle net w = (w', r) ->
  match r with
  | None =>
      ECDKG.phase (self w) <> complete
      /\ ECDKG.phase (self w') = next_phase (ECDKG.phase (self w))
  | Some _ => ECDKG.phase (self w') = ECDKG.phase (self w)
  end.
Proof.
  unfold handle_phase.
  destruct (ECDKG.phase (self w)) eqn:Hph;
    unfold handle_uninitialized_phase, handle_key_distribution_phase,
      handle_key_verification_phase, handle_key_check_phase,
      handle_key_generation_phase, handle_key_publication_phase;
    cbv zeta; intros H; break_hyp H; injection H as <- <-; simpl;
    auto; split; congruence.
Qed.

Lemma next_phase_value ph :
  ph <> complete -> phase_value (next_phase ph) = phase_value ph + 1.
Proof. destruct ph; simpl; intros H; congruence || lia. Qed.

Lemma phase_value_range ph : 0 <= phase_value ph <= 6.
Proof. destruct ph; simpl; lia. Qed.

Lemma run_until_phase_spec fuel net target w :
  6 - phase_value (ECDKG.phase (self w)) <= Z.of_nat fuel ->
  exists w' r,
    run fuel net target w = Some (w', r)
    /\ phase_value (ECDKG.phase (self w))
       <= phase_value (ECDKG.phase (self w'))
    /\ (r = None ->
        phase_value (ECDKG.phase (self w'))
        = Z.max (phase_value (ECDKG.phase (self w))) (phase_value target)).
Proof.
  revert w. induction fuel as [|fuel IH]; intros w Hfuel; simpl;
    unfold phase_lt;
    destruct (Z.ltb_spec (phase_value (ECDKG.phase (self w)))
                         (phase_value target)) as [Hlt|Hge];
    try (exists w, None; repeat split; lia).
  - pose proof (phase_value_range target). lia.
  - destruct (handle net w) as [w1 [e|]] eqn:Hstep;
      apply handle_phase_advances in Hstep.
    + exists w1, (Some e). rewrite Hstep. repeat split; [lia|discriminate].
    + destruct Hstep as [Hnot Hnext].
      pose proof (next_phase_value _ Hnot) as Hval. rewrite <- Hnext in Hval.
      destruct (IH w1) as (w' & r & -> & Hle & Hret); [lia|].
      exists w', r. repeat split; [lia|].
      intros Hr. rewrite (Hret Hr). lia.
Qed.

(** C8: the phase of a session never decreases.  The handler of a phase
    sets the next phase of the enumeration when it returns and leaves the
    phase as it is when it raises; [run_until_phase] calls no handler when
    the phase has reached the target; six iterations are enough for the
    loop to end, the phase it leaves is not below the one it found, and
    when it returns normally the phase has reached the target. *)
Theorem phase_never_decreases :
  (forall net w w' r,
      handle net w = (w', r) ->
      match r with
      | None =>
          ECDKG.phase (self w') = next_phase (ECDKG.phase (self w))
          /\ phase_value (ECDKG.phase (self w'))
             = phase_value (ECDKG.phase (self w)) + 1
      | Some _ => ECDKG.phase (self w') = ECDKG.phase (self w)
      end)
  /\ (forall fuel net target w,
         phase_lt (ECDKG.phase (self w)) target = false ->
         run fuel net target w = Some (w, None))
  /\ (forall fuel net target w,
         (6 <= fuel)%nat ->
         exists w' r,
           run fuel net target w = Some (w', r)
           /\ phase_value (ECDKG.phase (self w))
              <= phase_value (ECDKG.phase (self w'))
           /\ (r = None ->
               phase_value target <= phase_value (ECDKG.phase (self w')))).
Proof.
  split; [|split].
  - intros net w w' r Hstep. apply handle_phase_advances in Hstep.
    destruct r; [assumption|]. destruct Hstep as [Hnot Hnext].
    split; [assumption|]. rewrite Hnext. now apply next_phase_value.
  - intros fuel net target w Hge. destruct fuel; simpl; now rewrite Hge.
  - intros fuel net target w Hfuel.
    destruct (run_until_phase_spec fuel net target w)
      as (w' & r & Hrun & Hle & Hret).
    { pose proof (phase_value_range (ECDKG.phase (self w))). lia. }
    exists w', r. repeat split; auto. intros Hr. rewrite (Hret Hr). lia.
Qed.

(** *** Loops over the participants *)

(** The exception that ends a loop over [l], if any. *)
Fixpoint first_raise {X Y : Type} (f : X -> result Y) (l : list X)
  : option exn :=
  match l with
  | [] => None
  | x :: rest =>
      match f x with
      | inl e => Some e
      | inr _ => first_raise f rest
      end
  end.

Lemma first_raise_Some {X Y : Type} (f : X -> result Y) l e :
  first_raise f l = Some e
  <-> exists l1 x l2,
      l = (l1 ++ x :: l2)%list /\ f x = inl e
      /\ Forall (fun y => exists b, f y = inr b) l1.
Proof.
  induction l as [|a l IH]; simpl.
  - split; [discriminate|]. intros (l1 & x & l2 & H & _).
    destruct l1; discriminate.
  - destruct (f a) as [e'|b] eqn:Hfa.
    + split.
      * intros [= ->]. exists [], a, l. auto.
      * intros (l1 & x & l2 & H & Hx & Hall).
        destruct l1 as [|a' l1]; injection H as -> ->; [congruence|].
        inversion Hall as [|? ? [b Hb] _]; subst. congruence.
    + rewrite IH. split.
      * intros (l1 & x & l2 & -> & Hx & Hall).
        exists (a :: l1), x, l2. repeat split; eauto.
      * intros (l1 & x & l2 & H & Hx & Hall).
        destruct l1 as [|a' l1]; injection H as -> ->; [congruence|].
        inversion Hall; subst. exists l1, x, l2. auto.
Qed.

Lemma first_raise_None {X Y : Type} (f : X -> result Y) l :
  first_raise f l = None <-> Forall (fun y => exists b, f y = inr b) l.
Proof.
  induction l as [|a l IH]; simpl.
  - split; auto.
  - destruct (f a) as [e|b] eqn:Hfa.
    + split; [discriminate|]. intros H. inversion H as [|? ? [b Hb] _].
      congruence.
    + rewrite IH. split; [eauto|]. intros H. now inversion H.
Qed.

Section ForEach.
Variable sid : Z.
Variable body : ECDKGParticipant.t -> result ECDKGParticipant.t.
Hypothesis body_keeps_session :
  forall p p', body p = inr p' ->
               ECDKGParticipant.ecdkg_id p' = ECDKGParticipant.ecdkg_id p.

Lemma for_each_participant_raise rows :
  snd (for_each_participant sid body rows)
  = first_raise body (participants_of sid rows).
Proof.
  induction rows as [|p rows IH]; simpl; [reflexivity|].
  destruct (belongs sid p); simpl.
  - destruct (body p); simpl; [reflexivity|].
    destruct (for_each_participant sid body rows). exact IH.
  - destruct (for_each_participant sid body rows). exact IH.
Qed.

(** A loop that does not raise has run the body on every row of the
    session and has left the other rows alone. *)
Lemma for_each_participant_done rows rows' :
  for_each_participant sid body rows = (rows', None) ->
  Forall2 (fun p p' => body p = inr p')
          (participants_of sid rows) (participants_of sid rows')
  /\ (forall sid', sid' <> sid ->
                   participants_of sid' rows' = participants_of sid' rows).
Proof using Type + body_keeps_session.
  revert rows'. induction rows as [|p rows IH]; simpl; intros rows' H.
  - injection H as <-. split; [constructor|reflexivity].
  - destruct (belongs sid p) eqn:Hb.
    + destruct (body p) as [e|p'] eqn:Hp; [discriminate|].
      destruct (for_each_participant sid body rows) as [rest r].
      injection H as <- ->. destruct (IH rest eq_refl) as [IH1 IH2].
      pose proof (body_keeps_session _ _ Hp) as Hsid.
      unfold participants_of, belongs in *. simpl. rewrite Hsid, Hb. split.
      * constructor; assumption.
      * intros sid' Hne.
        destruct (ECDKGParticipant.ecdkg_id p =? sid') eqn:Hp'; auto.
        apply Z.eqb_eq in Hb, Hp'. congruence.
    + destruct (for_each_participant sid body rows) as [rest r].
      injection H as <- ->. destruct (IH rest eq_refl) as [IH1 IH2].
      unfold participants_of, belongs in *. simpl. rewrite Hb.
      split; [assumption|]. intros sid' Hne.
      destruct (ECDKGParticipant.ecdkg_id p =? sid'); [f_equal|]; auto.
Qed.
End ForEach.

(** *** Missing key parts *)

Lemma int16_raises s e : int16 s = inl e -> e = ValueError.
Proof.
  unfold int16. destruct (skip_sign (skip_space s)) as [sign s1].
  unfold raise, ret. intros H. break_hyp H; congruence.
Qed.

Lemma parse_point_raises s e : parse_point s = inl e -> e = ValueError.
Proof.
  unfold parse_point.
  destruct (int16 (slice s 0 64)) as [e1|x] eqn:H1; simpl.
  - intros [= <-]. eauto using int16_raises.
  - destruct (int16 (slice s 64 128)) as [e2|y] eqn:H2; simpl; [|discriminate].
    intros [= <-]. eauto using int16_raises.
Qed.

Lemma reduce_add_raises l initial e :
  reduce_add add l initial = inl e -> e = TypeError.
Proof.
  revert initial. induction l as [|x l IH]; simpl; intros initial;
    [discriminate|].
  destruct initial, x; simpl; eauto; now intros [= <-].
Qed.

Lemma sum_attr_raises l acc e : sum_attr l acc = inl e -> e = TypeError.
Proof.
  revert acc. induction l as [|[x|] l IH]; simpl; intros acc;
    [discriminate | eauto | now intros [= <-]].
Qed.

(** The first participant without a reply comes after participants whose
    replies are all well-formed. *)
Definition first_missing {V : Type} (replies : gmap Z V) (parses : V -> Prop)
    (ps : list ECDKGParticipant.t) : Prop :=
  exists l1 p l2,
    ps = (l1 ++ p :: l2)%list
    /\ replies !! ECDKGParticipant.eth_address p = None
    /\ Forall (fun q => exists v,
                   replies !! ECDKGParticipant.eth_address q = Some v
                   /\ parses v) l1.

Lemma store_encryption_key_part_keeps_session replies p p' :
  store_encryption_key_part replies p = inr p' ->
  ECDKGParticipant.ecdkg_id p' = ECDKGParticipant.ecdkg_id p.
Proof.
  unfold store_encryption_key_part.
  destruct (replies !! _) as [s|]; [|discriminate].
  destruct (parse_point s); simpl; [discriminate|]. now intros [= <-].
Qed.

Lemma store_decryption_key_part_keeps_session replies p p' :
  store_decryption_key_part replies p = inr p' ->
  ECDKGParticipant.ecdkg_id p' = ECDKGParticipant.ecdkg_id p.
Proof.
  unfold store_decryption_key_part.
  destruct (replies !! _) as [s|]; [|discriminate].
  destruct (int16 s); simpl; [discriminate|]. now intros [= <-].
Qed.

Lemma encryption_key_part_missing replies ps :
  (exists msg, first_raise (store_encryption_key_part replies) ps
               = Some (ProtocolError msg))
  <-> first_missing replies (fun s => exists pt, parse_point s = inr pt) ps.
Proof.
  unfold first_missing. split.
  - intros [msg H]. apply first_raise_Some in H as (l1 & p & l2 & -> & Hp & Hall).
    exists l1, p, l2. split; [reflexivity|]. split.
    + unfold store_encryption_key_part in Hp.
      destruct (replies !! _) as [s|]; [|reflexivity].
      destruct (parse_point s) as [e|pt] eqn:Hs; simpl in Hp; [|discriminate].
      apply parse_point_raises in Hs. congruence.
    + eapply List.Forall_impl; [|exact Hall]. intros q [q' Hq].
      unfold store_encryption_key_part in Hq.
      destruct (replies !! _) as [s|]; [|discriminate].
      exists s. split; [reflexivity|].
      destruct (parse_point s) as [e|pt]; [discriminate|eauto].
  - intros (l1 & p & l2 & -> & Hp & Hall). eexists.
    apply first_raise_Some. exists l1, p, l2. split; [reflexivity|]. split.
    + unfold store_encryption_key_part. rewrite Hp. reflexivity.
    + eapply List.Forall_impl; [|exact Hall]. intros q (s & Hs & pt & Hpt).
      unfold store_encryption_key_part. rewrite Hs, Hpt. simpl. eauto.
Qed.

Lemma decryption_key_part_missing replies ps :
  (exists msg, first_raise (store_decryption_key_part replies) ps
               = Some (ProtocolError msg))
  <-> first_missing replies (fun s => exists v, int16 s = inr v) ps.
Proof.
  unfold first_missing. split.
  - intros [msg H]. apply first_raise_Some in H as (l1 & p & l2 & -> & Hp & Hall).
    exists l1, p, l2. split; [reflexivity|]. split.
    + unfold store_decryption_key_part in Hp.
      destruct (replies !! _) as [s|]; [|reflexivity].
      destruct (int16 s) as [e|v] eqn:Hs; simpl in Hp; [|discriminate].
      apply int16_raises in Hs. congruence.
    + eapply List.Forall_impl; [|exact Hall]. intros q [q' Hq].
      unfold store_decryption_key_part in Hq.
      destruct (replies !! _) as [s|]; [|discriminate].
      exists s. split; [reflexivity|].
      destruct (int16 s) as [e|v]; [discriminate|eauto].
  - intros (l1 & p & l2 & -> & Hp & Hall). eexists.
    apply first_raise_Some. exists l1, p, l2. split; [reflexivity|]. split.
    + unfold store_decryption_key_part. rewrite Hp. reflexivity.
    + eapply List.Forall_impl; [|exact Hall]. intros q (s & Hs & v & Hv).
      unfold store_decryption_key_part. rewrite Hs, Hv. simpl. eauto.
Qed.

Lemma is_ProtocolError_true o :
  is_ProtocolError o = true <-> exists msg, o = Some (ProtocolError msg).
Proof.
  split.
  - destruct o as [[]|]; simpl; try discriminate. eauto.
  - intros [msg ->]. reflexivity.
Qed.

Lemma key_generation_raise net w :
  is_ProtocolError (snd (handle_key_generation_phase add net w)) = true
  <-> exists msg,
      first_raise (store_encryption_key_part (encryption_key_parts net))
                  (participants w) = Some (ProtocolError msg).
Proof.
  unfold handle_key_generation_phase, participants.
  rewrite <- for_each_participant_raise.
  destruct (for_each_participant _ _ _) as [rows [e|]]; cbn [fst snd].
  - apply is_ProtocolError_true.
  - destruct (reduce_add _ _ _) as [e|ek] eqn:Hr; simpl.
    + apply reduce_add_raises in Hr as ->. simpl.
      split; [discriminate|intros [? [=]]].
    + split; [discriminate|intros [? [=]]].
Qed.

Lemma key_publication_raise net w :
  is_ProtocolError (snd (handle_key_publication_phase net w)) = true
  <-> exists msg,
      first_raise (store_decryption_key_part (dec_key_parts net))
                  (participants w) = Some (ProtocolError msg).
Proof.
  unfold handle_key_publication_phase, participants.
  rewrite <- for_each_participant_raise.
  destruct (for_each_participant _ _ _) as [rows [e|]]; cbn [fst snd].
  - apply is_ProtocolError_true.
  - destruct (sum_attr _ _) as [e|total] eqn:Hs; simpl.
    + apply sum_attr_raises in Hs as ->. simpl.
      split; [discriminate|intros [? [=]]].
    + destruct (first_coefficient _) as [e|c0] eqn:Hc; simpl.
      * unfold first_coefficient, raise, ret in Hc.
        break_hyp Hc; try discriminate; injection Hc as <-;
          simpl; (split; [discriminate|intros [? [=]]]).
      * split; [discriminate|intros [? [=]]].
Qed.

Lemma first_missing_some {V : Type} (replies : gmap Z V) parses ps :
  first_missing replies parses ps ->
  exists p, In p ps /\ replies !! ECDKGParticipant.eth_address p = None.
Proof.
  intros (l1 & p & l2 & -> & Hp & _). exists p. split; [|exact Hp].
  apply in_or_app. right. now left.
Qed.

Lemma first_missing_intro {V : Type} (replies : gmap Z V) (parses : V -> Prop) ps :
  Forall (fun q => forall v,
              replies !! ECDKGParticipant.eth_address q = Some v -> parses v) ps ->
  (exists p, In p ps /\ replies !! ECDKGParticipant.eth_address p = None) ->
  first_missing replies parses ps.
Proof.
  induction 1 as [|a l Ha Hl IH]; intros (p & Hin & Hp); [destruct Hin|].
  destruct (replies !! ECDKGParticipant.eth_address a) as [v|] eqn:Hv.
  - destruct Hin as [->|Hin]; [congruence|].
    destruct IH as (l1 & q & l2 & -> & Hq & Hall); [eauto|].
    exists (a :: l1), q, l2. repeat split; auto.
    constructor; [|exact Hall]. exists v. auto.
  - exists [], a, l. repeat split; auto.
Qed.

(** The replies that are there are well-formed. *)
Definition replies_parse {V : Type} (replies : gmap Z V) (parses : V -> Prop)
    (ps : list ECDKGParticipant.t) : Prop :=
  Forall (fun q => forall v,
              replies !! ECDKGParticipant.eth_address q = Some v -> parses v) ps.

Definition some_missing {V : Type} (replies : gmap Z V)
    (ps : list ECDKGParticipant.t) : Prop :=
  exists p, In p ps /\ replies !! ECDKGParticipant.eth_address p = None.

(** C4, as the handlers have it: the KeyGeneration handler raises
    [ProtocolError] only if the [encryption_key_part] reply of some
    participant is missing, and it does raise it then, provided the replies
    that are there parse as points; likewise the KeyPublication handler with
    the [decryption_key_part] replies; and whenever one of the two handlers
    raises, the phase is the one it was entered with. *)
Theorem protocol_error_iff_part_missing :
  (forall net w,
      is_ProtocolError (snd (handle_key_generation_phase add net w)) = true ->
      some_missing (encryption_key_parts net) (participants w))
  /\ (forall net w,
         replies_parse (encryption_key_parts net)
           (fun s => exists pt, parse_point s = inr pt) (participants w) ->
         some_missing (encryption_key_parts net) (participants w) ->
         is_ProtocolError (snd (handle_key_generation_phase add net w)) = true)
  /\ (forall net w,
         is_ProtocolError (snd (handle_key_publication_phase net w)) = true ->
         some_missing (dec_key_parts net) (participants w))
  /\ (forall net w,
         replies_parse (dec_key_parts net)
           (fun s => exists v, int16 s = inr v) (participants w) ->
         some_missing (dec_key_parts net) (participants w) ->
         is_ProtocolError (snd (handle_key_publication_phase net w)) = true)
  /\ (forall net w e,
         snd (handle_key_generation_phase add net w) = Some e ->
         ECDKG.phase (self (fst (handle_key_generation_phase add net w)))
         = ECDKG.phase (self w))
  /\ (forall net w e,
         snd (handle_key_publication_phase net w) = Some e ->
         ECDKG.phase (self (fst (handle_key_publication_phase net w)))
         = ECDKG.phase (self w)).
Proof.
  repeat apply conj.
  - intros net w H. eapply first_missing_some.
    now apply encryption_key_part_missing, key_generation_raise.
  - intros net w Hparse Hmiss.
    now apply key_generation_raise, encryption_key_part_missing,
      first_missing_intro.
  - intros net w H. eapply first_missing_some.
    now apply decryption_key_part_missing, key_publication_raise.
  - intros net w Hparse Hmiss.
    now apply key_publication_raise, decryption_key_part_missing,
      first_missing_intro.
  - intros net w e. unfold handle_key_generation_phase.
    break_handler; simpl; intros [=]; reflexivity.
  - intros net w e. unfold handle_key_publication_phase.
    break_handler; simpl; intros [=]; reflexivity.
Qed.

(** *** The key distribution phase *)

Definition shares (p : ECDKGParticipant.t)
  : option Z * option Z * option Signature :=
  (ECDKGParticipant.secret_share1 p, ECDKGParticipant.secret_share2 p,
   ECDKGParticipant.shares_signature p).

(** The test a reply passes to be stored: the [try] block yields an
    address and it is the address of the peer. *)
Definition signature_accepted (recovered : result Z) (address : Z) : bool :=
  match recovered with
  | inr a => address =? a
  | inl _ => false
  end.

#[local] Abbreviation recover := (recover_share_signer address_to_bytes
                           private_value_to_bytes
                           address_from_message_and_signature own_address).

(** What the share loop leaves on a participant [p], as [p']. *)
Definition shares_outcome (replies : gmap Z ((Z * Z) * Signature))
    (cond : string) (p p' : ECDKGParticipant.t) : Prop :=
  match replies !! ECDKGParticipant.eth_address p with
  | Some ((share1, share2), signature) =>
      if signature_accepted (recover cond share1 share2 signature)
                            (ECDKGParticipant.eth_address p)
      then shares p' = (Some share1, Some share2, Some signature)
      else shares p' = shares p
  | None => shares p' = shares p
  end.

(** What the verification-point loop leaves on a participant. *)
Definition verification_points_outcome (replies : gmap Z (list string))
    (p p' : ECDKGParticipant.t) : Prop :=
  match replies !! ECDKGParticipant.eth_address p with
  | Some ptstrs =>
      exists pts,
        tuple_of parse_point ptstrs = inr pts
        /\ ECDKGParticipant.verification_points p' = Some pts
  | None =>
      ECDKGParticipant.verification_points p'
      = ECDKGParticipant.verification_points p
  end.

Definition same_row (p p' : ECDKGParticipant.t) : Prop :=
  ECDKGParticipant.id p' = ECDKGParticipant.id p
  /\ ECDKGParticipant.ecdkg_id p' = ECDKGParticipant.ecdkg_id p
  /\ ECDKGParticipant.eth_address p' = ECDKGParticipant.eth_address p.

Lemma store_secret_shares_inr cond replies p p' :
  store_secret_shares address_to_bytes private_value_to_bytes
    address_from_message_and_signature own_address cond replies p = inr p' ->
  same_row p p'
  /\ ECDKGParticipant.verification_points p'
     = ECDKGParticipant.verification_points p
  /\ shares_outcome replies cond p p'.
Proof.
  unfold store_secret_shares, shares_outcome, same_row, signature_accepted.
  destruct (replies !! _) as [[[share1 share2] signature]|].
  - destruct (recover cond share1 share2 signature) as [e|a].
    + destruct e; intros [= <-]; repeat split.
    + destruct (ECDKGParticipant.eth_address p =? a); intros [= <-];
        repeat split.
  - intros [= <-]. repeat split.
Qed.

Lemma store_verification_points_inr replies p p' :
  store_verification_points replies p = inr p' ->
  same_row p p' /\ shares p' = shares p
  /\ verification_points_outcome replies p p'.
Proof.
  unfold store_verification_points, verification_points_outcome, same_row.
  destruct (replies !! _) as [ptstrs|].
  - destruct (tuple_of parse_point ptstrs) as [e|pts]; simpl;
      intros [= <-]; repeat split. now exists pts.
  - intros [= <-]. repeat split.
Qed.

Lemma Forall2_compose {X : Type} (R S : X -> X -> Prop) l1 l2 l3 :
  Forall2 R l1 l2 -> Forall2 S l2 l3 ->
  Forall2 (fun a c => exists b, R a b /\ S b c) l1 l3.
Proof.
  intros H. revert l3. induction H as [|a b l1 l2 Hab _ IH]; intros l3 H';
    inversion H'; subst; constructor; eauto.
Qed.

Lemma for_each_participant_total sid body rows :
  first_raise body (participants_of sid rows) = None ->
  exists rows', for_each_participant sid body rows = (rows', None).
Proof.
  intros H. rewrite <- for_each_participant_raise in H.
  destruct (for_each_participant sid body rows) as [rows' r].
  simpl in H. subst. eauto.
Qed.

#[local] Abbreviation distribute :=
  (handle_key_distribution_phase address_to_bytes private_value_to_bytes
     address_from_message_and_signature own_address).

(** A normal return of the handler, participant by participant. *)
Lemma key_distribution_returns net w w' :
  distribute net w = (w', None) ->
  self w' = ECDKG.set_phase key_verification (self w)
  /\ complaint_rows w' = complaint_rows w
  /\ Forall2 (fun p p' =>
                same_row p p'
                /\ shares_outcome (signed_secret_shares net)
                     (ECDKG.decryption_condition (self w)) p p'
                /\ verification_points_outcome
                     (verification_points_replies net) p p')
             (participants w) (participants w').
Proof.
  unfold handle_key_distribution_phase. intros H.
  destruct (for_each_participant _ _ (participant_rows w))
    as [rows1 [e|]] eqn:H1; [discriminate|].
  destruct (for_each_participant _ _ rows1) as [rows2 [e|]] eqn:H2;
    [discriminate|].
  injection H as <-. split; [reflexivity|]. split; [reflexivity|].
  apply for_each_participant_done in H1 as [H1 _];
    [|intros p p' Hp; now apply store_secret_shares_inr in Hp as [(_ & ? & _) _]].
  apply for_each_participant_done in H2 as [H2 _];
    [|intros p p' Hp; now apply store_verification_points_inr in Hp as [(_ & ? & _) _]].
  unfold participants. simpl.
  eapply Forall2_impl; [exact (Forall2_compose _ _ _ _ _ H1 H2)|].
  intros p p' (q & Hq & Hp').
  apply store_secret_shares_inr in Hq as ((Hi1 & Hs1 & Ha1) & Hv1 & Ho1).
  apply store_verification_points_inr in Hp' as ((Hi2 & Hs2 & Ha2) & Hsh2 & Ho2).
  unfold same_row, shares_outcome, verification_points_outcome in *.
  rewrite Ha1 in Ho2. rewrite Hv1 in Ho2. rewrite Hsh2.
  repeat split; try congruence.
Qed.

Lemma Forall_Forall2_transfer {X : Type} (P Q : X -> Prop)
    (R : X -> X -> Prop) l1 l2 :
  (forall a b, P a -> R a b -> Q b) ->
  Forall P l1 -> Forall2 R l1 l2 -> Forall Q l2.
Proof.
  intros HPQ HP HR. induction HR as [|a b l1 l2 Hab _ IH];
    [constructor|]. inversion HP; subst. constructor; eauto.
Qed.

(** The [try] block raises nothing but [ValueError] on the reply of [p]. *)
Definition only_ValueError (replies : gmap Z ((Z * Z) * Signature))
    (cond : string) (p : ECDKGParticipant.t) : Prop :=
  forall share1 share2 signature e,
    replies !! ECDKGParticipant.eth_address p
    = Some ((share1, share2), signature) ->
    recover cond share1 share2 signature = inl e -> e = ValueError.

(** The verification points that [p] sent, if any, are well-formed. *)
Definition points_parse (replies : gmap Z (list string))
    (p : ECDKGParticipant.t) : Prop :=
  forall ptstrs,
    replies !! ECDKGParticipant.eth_address p = Some ptstrs ->
    exists pts, tuple_of parse_point ptstrs = inr pts.

(** The handler returns whatever replies are missing. *)
Lemma key_distribution_total net w :
  Forall (only_ValueError (signed_secret_shares net)
            (ECDKG.decryption_condition (self w))) (participants w) ->
  Forall (points_parse (verification_points_replies net)) (participants w) ->
  exists w',
    distribute net w = (w', None)
    /\ ECDKG.phase (self w') = key_verification.
Proof.
  intros Hshares Hpoints. unfold handle_key_distribution_phase.
  set (body1 := store_secret_shares _ _ _ _ _ _).
  set (body2 := store_verification_points _).
  assert (H1 : first_raise body1 (participants w) = None).
  { apply first_raise_None. eapply List.Forall_impl; [|exact Hshares].
    intros p Hp. unfold body1, store_secret_shares.
    destruct (signed_secret_shares net !! _)
      as [[[share1 share2] signature]|] eqn:Hr; [|eauto].
    destruct (recover _ share1 share2 signature) as [e|a] eqn:Hrec.
    - rewrite (Hp _ _ _ _ Hr Hrec). eauto.
    - destruct (_ =? a); eauto. }
  destruct (for_each_participant_total _ _ _ H1) as [rows1 Hrows1].
  rewrite Hrows1.
  apply for_each_participant_done in Hrows1 as [Hrows1 _];
    [|intros p p' Hp; now apply store_secret_shares_inr in Hp as [(_ & ? & _) _]].
  assert (H2 : first_raise body2 (participants_of (ECDKG.id (self w)) rows1)
               = None).
  { apply first_raise_None.
    eapply Forall_Forall2_transfer; [|exact Hpoints|exact Hrows1].
    intros p q Hp Hq. apply store_secret_shares_inr in Hq as [(_ & _ & Ha) _].
    unfold body2, store_verification_points. rewrite Ha.
    destruct (verification_points_replies net !! _) as [ptstrs|] eqn:Hr;
      [|eauto].
    destruct (Hp _ Hr) as [pts ->]. simpl. eauto. }
  destruct (for_each_participant_total _ _ _ H2) as [rows2 ->].
  eexists. split; reflexivity.
Qed.

(** C7: the signed shares of a peer are stored on its participant exactly
    when the [try] block, which recovers the signer of the message
    condition || own address || SECRETSHARES || share1 || share2, yields the
    address of that peer; when it raises or yields another address (on a
    normal return of the handler the exception was a [ValueError]) the reply
    is discarded and the three fields keep the values they had (unset on a
    fresh participant); a participant without reply keeps them too, and the
    handler still returns and advances. *)
Theorem signed_shares_stored_iff_signer_matches :
  (forall cond share1 share2 signature a b1 b2,
      address_to_bytes own_address = inr a ->
      private_value_to_bytes share1 = inr b1 ->
      private_value_to_bytes share2 = inr b2 ->
      recover cond share1 share2 signature
      = address_from_message_and_signature
          (list_byte_of_string cond ++ a
             ++ list_byte_of_string "SECRETSHARES" ++ b1 ++ b2)%list
          signature)
  /\ (forall recovered address,
         signature_accepted recovered address = false
         <-> (exists e, recovered = inl e)
             \/ (exists a, recovered = inr a /\ a <> address))
  /\ (forall net w w',
         distribute net w = (w', None) ->
         Forall2 (fun p p' =>
                    same_row p p'
                    /\ shares_outcome (signed_secret_shares net)
                         (ECDKG.decryption_condition (self w)) p p')
                 (participants w) (participants w'))
  /\ (forall net w,
         Forall (only_ValueError (signed_secret_shares net)
                   (ECDKG.decryption_condition (self w))) (participants w) ->
         Forall (points_parse (verification_points_replies net))
                (participants w) ->
         exists w',
           distribute net w = (w', None)
           /\ ECDKG.phase (self w') = key_verification).
Proof.
  split; [|split; [|split]].
  - intros cond share1 share2 signature a b1 b2 Ha Hb1 Hb2.
    unfold recover_share_signer. rewrite Ha, Hb1, Hb2. reflexivity.
  - intros [e|a] address; simpl.
    + split; [eauto|reflexivity].
    + rewrite Z.eqb_neq. split.
      * intros Hne. right. exists a. auto.
      * intros [[e [=]]|(a' & [= <-] & Hne)]. auto.
  - intros net w w' H. apply key_distribution_returns in H as (_ & _ & H).
    eapply Forall2_impl; [exact H|]. intros p p' (? & ? & _). auto.
  - exact key_distribution_total.
Qed.

Lemma tuple_of_length {X Y : Type} (f : X -> result Y) l ys :
  tuple_of f l = inr ys -> length ys = length l.
Proof.
  intros H. apply tuple_of_inr in H.
  induction H; simpl; auto.
Qed.

(** C3, as the handler has it: a reply with verification points is turned
    into one pair of integers per string of the reply, by [int(.., 16)] on
    the two halves of 64 characters, and the tuple is stored on the
    participant as it is, whatever its length and whether or not the
    pairs are points of the curve; the field keeps its value only for a
    participant without reply. *)
Theorem verification_points_stored_unvalidated :
  (forall net w w',
      distribute net w = (w', None) ->
      Forall2 (fun p p' =>
                 same_row p p'
                 /\ match verification_points_replies net
                          !! ECDKGParticipant.eth_address p with
                    | Some ptstrs =>
                        exists pts,
                          tuple_of parse_point ptstrs = inr pts
                          /\ length pts = length ptstrs
                          /\ ECDKGParticipant.verification_points p' = Some pts
                    | None =>
                        ECDKGParticipant.verification_points p'
                        = ECDKGParticipant.verification_points p
                    end)
              (participants w) (participants w'))
  /\ (forall net w,
         Forall (only_ValueError (signed_secret_shares net)
                   (ECDKG.decryption_condition (self w))) (participants w) ->
         Forall (points_parse (verification_points_replies net))
                (participants w) ->
         exists w', distribute net w = (w', None)).
Proof.
  split.
  - intros net w w' H. apply key_distribution_returns in H as (_ & _ & H).
    eapply Forall2_impl; [exact H|]. intros p p' (Hrow & _ & Hv).
    split; [exact Hrow|]. unfold verification_points_outcome in Hv.
    destruct (verification_points_replies net !! _) as [ptstrs|]; [|exact Hv].
    destruct Hv as (pts & Hpts & Hv). exists pts.
    eauto using tuple_of_length.
  - intros net w H1 H2.
    destruct (key_distribution_total net w H1 H2) as (w' & H & _). eauto.
Qed.

(** *** The joint key *)

(** A participant whose stored parts are those of a secret [s]: its
    [encryption_key_part] is s.G and its [decryption_key_part] is s. *)
Definition honest (p : ECDKGParticipant.t) : Prop :=
  exists s,
    ECDKGParticipant.encryption_key_part p = Some (multiply secp256k1.G s)
    /\ ECDKGParticipant.decryption_key_part p = Some s.

(** The node's own part is its first coefficient times G. *)
Definition own_part_valid (s : ECDKG.t) : Prop :=
  exists a0 rest,
    ECDKG.secret_poly1 s = Some (a0 :: rest)
    /\ ECDKG.encryption_key_part s = Some (multiply secp256k1.G a0).

Lemma honest_parts ps :
  Forall honest ps ->
  exists secrets,
    map ECDKGParticipant.encryption_key_part ps
    = map (fun s => Some (multiply secp256k1.G s)) secrets
    /\ map ECDKGParticipant.decryption_key_part ps = map Some secrets.
Proof.
  induction 1 as [|p ps (s & He & Hd) _ (secrets & Hes & Hds)].
  - exists []. auto.
  - exists (s :: secrets). simpl. now rewrite He, Hd, Hes, Hds.
Qed.

Lemma sum_attr_Some secrets acc :
  sum_attr (map Some secrets) acc = inr (fold_left Z.add secrets acc).
Proof.
  revert acc. induction secrets as [|s secrets IH]; simpl; intros acc; auto.
Qed.

Lemma key_generation_returns net w w1 :
  handle_key_generation_phase add net w = (w1, None) ->
  exists ek,
    reduce_add add (map ECDKGParticipant.encryption_key_part (participants w1))
               (ECDKG.encryption_key_part (self w)) = inr ek
    /\ self w1 = ECDKG.set_phase key_publication
                   (ECDKG.set_encryption_key ek (self w)).
Proof.
  unfold handle_key_generation_phase. intros H.
  destruct (for_each_participant _ _ _) as [rows [e|]]; [discriminate|].
  destruct (reduce_add _ _ _) as [e|ek] eqn:Hr; [discriminate|].
  injection H as <-. exists ek. split; [exact Hr|reflexivity].
Qed.

Lemma key_publication_returns net w w2 :
  handle_key_publication_phase net w = (w2, None) ->
  exists total c0,
    sum_attr (map ECDKGParticipant.decryption_key_part (participants w2)) 0
    = inr total
    /\ first_coefficient (ECDKG.secret_poly1 (self w)) = inr c0
    /\ self w2 = ECDKG.set_phase complete
                   (ECDKG.set_decryption_key ((total + c0) mod secp256k1.N)
                      (self w))
    /\ map ECDKGParticipant.encryption_key_part (participants w2)
       = map ECDKGParticipant.encryption_key_part (participants w).
Proof.
  unfold handle_key_publication_phase. intros H.
  destruct (for_each_participant _ _ _) as [rows [e|]] eqn:Hloop;
    [discriminate|].
  simpl in H.
  destruct (sum_attr _ _) as [e|total] eqn:Hs; [discriminate|].
  destruct (first_coefficient _) as [e|c0] eqn:Hc; [discriminate|].
  simpl in H. injection H as <-. exists total, c0.
  repeat split; auto.
  apply for_each_participant_done in Hloop as [Hloop _];
    [|apply store_decryption_key_part_keeps_session].
  unfold participants. simpl.
  induction Hloop as [|p p' ps ps' Hp _ IH]; simpl; [reflexivity|].
  f_equal; [|exact IH].
  unfold store_decryption_key_part in Hp.
  destruct (dec_key_parts net !! _) as [str|]; [|discriminate].
  destruct (int16 str); simpl in Hp; [discriminate|].
  now injection Hp as <-.
Qed.

(** The uninitialized handler makes the own part valid and the handlers
    between it and KeyGeneration keep it. *)
Lemma own_part_established net w :
  unique_participants (participant_rows w) ->
  own_part_valid (self (fst (handle_uninitialized_phase add multiply net w))).
Proof.
  intros Hu.
  destruct (handle_uninitialized_phase_run net w Hu)
    as (rows & a0 & rest & _ & _ & Hpoly & ->).
  cbv zeta in Hpoly. exists a0, rest. simpl. rewrite Hpoly. auto.
Qed.

Lemma own_part_kept net w :
  own_part_valid (self w) ->
  own_part_valid (self (fst (distribute net w)))
  /\ own_part_valid
       (self (fst (handle_key_verification_phase add multiply own_address w)))
  /\ own_part_valid (self (fst (handle_key_check_phase net w))).
Proof.
  intros H. repeat apply conj;
    unfold handle_key_distribution_phase, handle_key_verification_phase,
      handle_key_check_phase; break_handler; exact H.
Qed.

Section JointKey.
(** G generates a group of order N under the operations of py_ecc. *)
Hypothesis G_additive :
  forall a b,
    multiply secp256k1.G (a + b)
    = add (multiply secp256k1.G a) (multiply secp256k1.G b).
Hypothesis G_order :
  forall a, multiply secp256k1.G (a mod secp256k1.N) = multiply secp256k1.G a.

Lemma reduce_add_honest secrets acc :
  reduce_add add (map (fun s => Some (multiply secp256k1.G s)) secrets)
             (Some (multiply secp256k1.G acc))
  = inr (Some (multiply secp256k1.G (fold_left Z.add secrets acc))).
Proof using Type + G_additive.
  revert acc. induction secrets as [|s secrets IH]; simpl; intros acc;
    [reflexivity|].
  rewrite <- G_additive. apply IH.
Qed.

Lemma fold_left_add_shift secrets a b :
  fold_left Z.add secrets (a + b) = fold_left Z.add secrets a + b.
Proof.
  revert a. induction secrets as [|s secrets IH]; simpl; intros a;
    [reflexivity|].
  rewrite <- IH. f_equal. lia.
Qed.

Lemma fold_left_add_parts secrets a :
  fold_left add (map (multiply secp256k1.G) secrets) (multiply secp256k1.G a)
  = multiply secp256k1.G (fold_left Z.add secrets a).
Proof using Type + G_additive.
  revert a. induction secrets as [|s secrets IH]; simpl; intros a;
    [reflexivity|].
  rewrite <- G_additive. apply IH.
Qed.

(** C1: when the KeyGeneration and the KeyPublication handlers have
    returned on a session whose own part is secret_poly1[0].G and every
    participant ends with an encryption part s.G and a decryption part s
    for some s, the joint keys satisfy decryption_key.G = encryption_key,
    the encryption key being the own part plus the parts of the
    participants and the decryption key the sum of the first coefficient
    and of their parts modulo N. *)
Theorem joint_key_correct net w w1 w2 a0 rest :
  ECDKG.secret_poly1 (self w) = Some (a0 :: rest) ->
  ECDKG.encryption_key_part (self w) = Some (multiply secp256k1.G a0) ->
  handle_key_generation_phase add net w = (w1, None) ->
  handle_key_publication_phase net w1 = (w2, None) ->
  Forall honest (participants w2) ->
  exists ek dk parts secrets,
    ECDKG.encryption_key (self w2) = Some ek
    /\ ECDKG.decryption_key (self w2) = Some dk
    /\ ECDKG.phase (self w2) = complete
    /\ map ECDKGParticipant.encryption_key_part (participants w2)
       = map Some parts
    /\ map ECDKGParticipant.decryption_key_part (participants w2)
       = map Some secrets
    /\ ek = fold_left add parts (multiply secp256k1.G a0)
    /\ dk = (fold_left Z.add secrets 0 + a0) mod secp256k1.N
    /\ multiply secp256k1.G dk = ek.
Proof using Type + G_additive + G_order.
  intros Hpoly Hown Hgen Hpub Hhonest.
  apply key_generation_returns in Hgen as (ek & Hek & Hself1).
  apply key_publication_returns in Hpub
    as (total & c0 & Htotal & Hc0 & Hself2 & Hparts).
  destruct (honest_parts _ Hhonest) as (secrets & Hes & Hds).
  rewrite Hself1 in Hc0. simpl in Hc0. rewrite Hpoly in Hc0.
  injection Hc0 as <-.
  rewrite Hds, sum_attr_Some in Htotal. injection Htotal as <-.
  rewrite <- Hparts, Hes, Hown, reduce_add_honest in Hek.
  injection Hek as <-.
  exists (multiply secp256k1.G (fold_left Z.add secrets a0)),
    ((fold_left Z.add secrets 0 + a0) mod secp256k1.N),
    (map (multiply secp256k1.G) secrets), secrets.
  rewrite Hself2, Hself1. simpl.
  repeat split; auto.
  - rewrite Hes, map_map. reflexivity.
  - symmetry. apply fold_left_add_parts.
  - rewrite G_order, <- fold_left_add_shift. reflexivity.
Qed.
End JointKey.


(** *** The key verification phase *)

Lemma point_eqb_eq (a b : Point) : point_eqb a b = true <-> a = b.
Proof.
  unfold point_eqb. rewrite andb_true_iff, !Z.eqb_eq.
  destruct a, b; simpl. split; [intros []|intros [= ]]; subst; auto.
Qed.

(** The sum on the right of the share test, for a non-empty tuple. *)
Definition weighted_sum (pt : Point) (pts : list Point) : Point :=
  fold_left add
    (imap (fun k ps => multiply ps (pow_mod own_address (S k) secp256k1.N)) pts)
    (multiply pt (pow_mod own_address 0 secp256k1.N)).

Lemma verification_rhs_cons pt pts :
  verification_rhs add multiply own_address (Some (pt :: pts))
  = inr (weighted_sum pt pts).
Proof. reflexivity. Qed.

(** The participant has both shares and a non-empty tuple of points, or
    lacks a share. *)
Definition checkable (p : ECDKGParticipant.t) : Prop :=
  ECDKGParticipant.secret_share1 p <> None ->
  ECDKGParticipant.secret_share2 p <> None ->
  exists pt pts, ECDKGParticipant.verification_points p = Some (pt :: pts).

#[local] Abbreviation verified := (shares_verified add multiply own_address).

Lemma shares_verified_checkable p :
  checkable p -> exists b, verified p = inr b.
Proof.
  unfold checkable, shares_verified. intros H.
  destruct (ECDKGParticipant.secret_share1 p) as [share1|]; [|eauto].
  destruct (ECDKGParticipant.secret_share2 p) as [share2|]; [|eauto].
  destruct H as (pt & pts & ->); try discriminate.
  rewrite verification_rhs_cons. simpl. eauto.
Qed.

(** The complaints after the loop are those before it and one by
    [own_address] against every participant that fails the test. *)
Lemma verify_participants_complaints ps rows :
  unique_complaints rows ->
  Forall checkable ps ->
  exists rows',
    verify_participants add multiply own_address ps rows = (rows', None)
    /\ unique_complaints rows'
    /\ (forall k, In k (map complaint_key rows')
                  <-> In k (map complaint_key rows)
                      \/ exists p, In p ps /\ verified p = inr false
                                   /\ k = (ECDKGParticipant.id p, own_address)).
Proof.
  intros Hu Hall. revert rows Hu.
  induction Hall as [|p ps Hp _ IH]; intros rows Hu; simpl.
  - exists rows. repeat split; auto. intros [H|(p & [] & _)]. exact H.
  - destruct (shares_verified_checkable p Hp) as [[|] Hb]; rewrite Hb.
    + destruct (IH rows Hu) as (rows' & -> & Hu' & Hk').
      exists rows'. repeat split; auto.
      * intros Hk. apply Hk' in Hk as [Hk|(q & Hq & Hv & ->)]; eauto 7.
      * intros [Hk|(q & [<-|Hq] & Hv & ->)]; apply Hk'; eauto 7.
        congruence.
    + destruct (get_or_create_complaint_unique (ECDKGParticipant.id p)
                  own_address rows Hu) as (rows1 & c & -> & Hu1 & Hk1).
      destruct (IH rows1 Hu1) as (rows' & -> & Hu' & Hk').
      exists rows'. repeat split; auto.
      * intros Hk. apply Hk' in Hk as [Hk|(q & Hq & Hv & ->)]; [|eauto 7].
        apply Hk1 in Hk as [Hk| ->]; eauto 7.
      * intros [Hk|(q & [<-|Hq] & Hv & ->)]; apply Hk'.
        -- left. apply Hk1. auto.
        -- left. apply Hk1. auto.
        -- eauto 7.
Qed.

(** The number of complaints by [own_address] against the row [pid]. *)
Definition complaints_against (pid : Z) (rows : list ECDKGComplaint.t) : nat :=
  length (List.filter (has_key complaint_key (pid, own_address)) rows).

(** The part of the verification phase that works: when every participant
    that has both shares also has a non-empty tuple of verification points,
    the handler returns and advances to KeyCheck; a participant that passes
    the test gets no complaint that was not there before and one that fails
    it, or lacks a share, has exactly one afterwards. *)
Lemma key_verification_complaints w :
  unique_complaints (complaint_rows w) ->
  List.NoDup (map ECDKGParticipant.id (participants w)) ->
  Forall checkable (participants w) ->
  exists w',
    handle_key_verification_phase add multiply own_address w = (w', None)
    /\ ECDKG.phase (self w') = key_check
    /\ participant_rows w' = participant_rows w
    /\ forall p,
        In p (participants w) ->
        match verified p with
        | inr true =>
            complaints_against (ECDKGParticipant.id p) (complaint_rows w')
            = complaints_against (ECDKGParticipant.id p) (complaint_rows w)
        | _ =>
            complaints_against (ECDKGParticipant.id p) (complaint_rows w') = 1%nat
        end.
Proof.
  intros Hu Hids Hall. unfold handle_key_verification_phase.
  destruct (verify_participants_complaints _ _ Hu Hall) as (rows' & -> & Hu' & Hk).
  eexists. repeat split. simpl. intros p Hp.
  assert (Hone : forall rows k, unique_complaints rows ->
            In k (map complaint_key rows) ->
            length (List.filter (has_key complaint_key k) rows) = 1%nat).
  { intros rows k Hr Hin.
    destruct (filter_unique complaint_key k rows Hr) as [Hnil|(c & -> & _)];
      [|reflexivity].
    apply filter_nil_absent in Hnil. contradiction. }
  assert (Hsame : forall q, In q (participants w) ->
            ECDKGParticipant.id q = ECDKGParticipant.id p -> q = p).
  { clear - Hids Hp. intros q Hq Hid.
    induction (participants w) as [|x l IH]; [destruct Hp|].
    simpl in Hids. inversion Hids as [|? ? Hx Hl]; subst.
    destruct Hp as [->|Hp], Hq as [->|Hq]; auto.
    - exfalso. apply Hx. rewrite <- Hid. now apply in_map.
    - exfalso. apply Hx. rewrite Hid. now apply in_map. }
  unfold complaints_against.
  destruct (shares_verified_checkable p) as [[|] Hb];
    [rewrite List.Forall_forall in Hall; auto| |]; rewrite Hb.
  - destruct (filter_unique complaint_key (ECDKGParticipant.id p, own_address)
                (complaint_rows w) Hu) as [Hnil|(c & Hc & Hin & Hkc)].
    + rewrite Hnil. apply filter_nil_absent in Hnil.
      rewrite filter_absent; [reflexivity|].
      intros Hin. apply Hk in Hin as [Hin|(q & Hq & Hv & [= Hid])];
        [contradiction|].
      rewrite (Hsame q Hq) in Hv by congruence. congruence.
    + rewrite Hc. apply Hone; [assumption|]. apply Hk. left.
      rewrite <- Hkc. now apply in_map.
  - apply Hone; [assumption|]. apply Hk. eauto 7.
Qed.

End EngineFacts.

(** * A sample deployment

    Three nodes run the engine against each other.  The helpers of [util]
    and the operations of py_ecc, which [ecdkg.py] only calls, are replaced
    by stand-ins: a group of order N in which points are added componentwise,
    big-endian encodings of fixed width, and a signature that carries the
    address of its signer and a checksum of the message. *)

Module Sample.

(** Pairs of residues modulo N, added componentwise: a group in which
    every element has order dividing N. *)
Definition add (a b : Point) : Point :=
  ((fst a + fst b) mod secp256k1.N, (snd a + snd b) mod secp256k1.N).

Definition multiply (a : Point) (n : Z) : Point :=
  ((fst a * n) mod secp256k1.N, (snd a * n) mod secp256k1.N).

(** Big-endian encodings of fixed width; [ValueError] out of range. *)
Definition byte_of_Z (z : Z) : Byte.byte :=
  match Byte.of_N (Z.to_N z) with
  | Some b => b
  | None => Byte.x00
  end.

Fixpoint big_endian (len : nat) (v : Z) : list Byte.byte :=
  match len with
  | O => []
  | S k => big_endian k (v / 256) ++ [byte_of_Z (v mod 256)]
  end.

Definition int_to_bytes (len : nat) (v : Z) : result (list Byte.byte) :=
  if (0 <=? v) && (v <? 256 ^ Z.of_nat len)
  then ret (big_endian len v)
  else raise ValueError.

Definition address_to_bytes : Z -> result (list Byte.byte) := int_to_bytes 20.
Definition private_value_to_bytes : Z -> result (list Byte.byte) :=
  int_to_bytes 32.

(** A signature carries the address of the key and a checksum of the
    message; recovery yields that address when the checksum matches. *)
Definition digest (msg : list Byte.byte) : Z :=
  fold_left (fun acc b => (acc * 257 + Z.of_N (Byte.to_N b)) mod secp256k1.N)
            msg 0.

Definition address_of_key (key : Z) : Z := (key * 7919) mod 2 ^ 160.

Definition sign_with_key (msg : list Byte.byte) (key : Z) : result Signature :=
  ret (address_of_key key, digest msg, 27).

Definition address_from_message_and_signature (msg : list Byte.byte)
    (signature : Signature) : result Z :=
  let '(r, s, v) := signature in
  if (v =? 27) || (v =? 28)
  then ret (if s =? digest msg then r else (r + 1) mod 2 ^ 160)
  else raise ValueError.

Definition condition : string := "test-2025-01-01".

Definition fresh : World := mkWorld (ECDKG.new 1 condition) [] [].

(** The value that call number [k] of [util.random_private_value] returns
    on the node of key [key]. *)
Definition drawn (key : Z) (k : nat) : Z :=
  (key * 1000003 + Z.of_nat k * 7919 + 1) mod secp256k1.N.

Record Node : Type := mkNode { key : Z; peers : list Z }.

Definition address (n : Node) : Z := address_of_key (key n).

(** The inputs of a node before any reply has arrived. *)
Definition offline (n : Node) : Network :=
  mkNetwork (peers n) (drawn (key n)) ∅ ∅ ∅ ∅ ∅.

(** The session of a node once its uninitialized handler has run. *)
Definition started (n : Node) : ECDKG.t :=
  self (fst (handle_uninitialized_phase add multiply (offline n) fresh)).

Definition format_curve_point (pt : Point) : string :=
  String.append (format_x 64 (fst pt)) (format_x 64 (snd pt)).

(** The replies the transport collects for node [n] from the sessions of
    the [others], as their RPC endpoints give them. *)
Definition reply {V : Type} (f : Node -> option V) (n : Node) : list (Z * V) :=
  match f n with
  | Some v => [(address n, v)]
  | None => []
  end.

Definition replies {V : Type} (f : Node -> option V) (ns : list Node)
  : gmap Z V :=
  list_to_map (concat (map (reply f) ns)).

Definition online (n : Node) (others : list Node) : Network :=
  mkNetwork (peers n) (drawn (key n))
    (replies (fun o =>
                match get_signed_secret_shares address_to_bytes
                        private_value_to_bytes sign_with_key (key o)
                        (started o) (address n) with
                | inr r => Some r
                | inl _ => None
                end) others)
    (replies (fun o => map format_curve_point
                         <$> ECDKG.verification_points (started o)) others)
    ∅
    (replies (fun o => format_curve_point
                         <$> ECDKG.encryption_key_part (started o)) others)
    (replies (fun o => match ECDKG.secret_poly1 (started o) with
                       | Some (c :: _) => Some (format_x 64 c)
                       | _ => None
                       end) others).

Definition n1 := mkNode 11 [address_of_key 22; address_of_key 33].
Definition n2 := mkNode 22 [address_of_key 11; address_of_key 33].
Definition n3 := mkNode 33 [address_of_key 11; address_of_key 22].

(** [run_until_phase] on node [n], with the six iterations that always
    suffice. *)
Definition run (n : Node) (net : Network) (target : ECDKGPhase) (w : World)
  : option (World * option exn) :=
  run_until_phase add multiply address_to_bytes private_value_to_bytes
    address_from_message_and_signature (address n) 6 net target w.

Definition distribute (n : Node) (net : Network) (w : World)
  : World * option exn :=
  handle_key_distribution_phase address_to_bytes private_value_to_bytes
    address_from_message_and_signature (address n) net w.

Definition verify (n : Node) (w : World) : World * option exn :=
  handle_key_verification_phase add multiply (address n) w.

(** What [n1] receives from [n2] and [n3], and its session after each
    phase. *)
Definition shares1 : gmap Z ((Z * Z) * Signature) :=
  Eval vm_compute in signed_secret_shares (online n1 [n2; n3]).

Definition points1 : gmap Z (list string) :=
  Eval vm_compute in verification_points_replies (online n1 [n2; n3]).

Definition parts1 : gmap Z string :=
  Eval vm_compute in encryption_key_parts (online n1 [n2; n3]).

Definition secrets1 : gmap Z string :=
  Eval vm_compute in dec_key_parts (online n1 [n2; n3]).

Definition net1 : Network :=
  mkNetwork (peers n1) (drawn (key n1)) shares1 points1 ∅ parts1 secrets1.

Definition distributing : World :=
  Eval vm_compute in fst (handle_uninitialized_phase add multiply net1 fresh).

Definition verifying : World :=
  Eval vm_compute in fst (distribute n1 net1 distributing).

Definition generating : World :=
  Eval vm_compute in
    fst (handle_key_check_phase net1 (fst (verify n1 verifying))).

Definition publishing : World :=
  Eval vm_compute in fst (handle_key_generation_phase add net1 generating).

Definition completed : World :=
  Eval vm_compute in fst (handle_key_publication_phase net1 publishing).

(** The same, when the verification points of [n2] get lost. *)
Definition points1_lossy : gmap Z (list string) :=
  Eval vm_compute in delete (address n2) points1.

Definition net1_lossy : Network :=
  mkNetwork (peers n1) (drawn (key n1)) shares1 points1_lossy ∅ parts1 secrets1.

Definition stalled : World :=
  Eval vm_compute in fst (distribute n1 net1_lossy distributing).

(** The same, when [n2] sends a pair of integers that is no point of the
    curve. *)
Definition points1_forged : gmap Z (list string) :=
  Eval vm_compute in <[address n2 := [format_curve_point (1, 1)]]> points1.

Definition net1_forged : Network :=
  mkNetwork (peers n1) (drawn (key n1)) shares1 points1_forged ∅ parts1 secrets1.

Definition deceived : World :=
  Eval vm_compute in fst (distribute n1 net1_forged distributing).

(** The same, when the key parts of [n2] are no hexadecimal text and those
    of [n3] get lost. *)
Definition parts1_garbled : gmap Z string :=
  Eval vm_compute in <[address n2 := "zz"%string]> (delete (address n3) parts1).

Definition secrets1_garbled : gmap Z string :=
  Eval vm_compute in <[address n2 := "zz"%string]> (delete (address n3) secrets1).

Definition net1_garbled : Network :=
  mkNetwork (peers n1) (drawn (key n1)) shares1 points1 ∅ parts1_garbled
            secrets1_garbled.

(** A node with four peers. *)
Definition four_peers : Network := mkNetwork [1; 2; 3; 4] (drawn 5) ∅ ∅ ∅ ∅ ∅.

(** A session with two participants. *)
Definition two_rows : World :=
  mkWorld (ECDKG.set_phase key_generation (ECDKG.new 1 condition))
          [ECDKGParticipant.new 1 1 100; ECDKGParticipant.new 2 1 200] [].

(** The first of them sent its part, the second nothing. *)
Definition one_reply : Network :=
  mkNetwork [100; 200] (drawn 5) ∅ ∅ ∅ {[100 := format_curve_point (1, 1)]} ∅.

(** A participant whose shares arrived and whose verification points did
    not. *)
Definition without_points : World :=
  mkWorld (ECDKG.set_phase key_verification (ECDKG.new 1 condition))
          [ECDKGParticipant.set_shares 5 6 (1, 2, 27)
             (ECDKGParticipant.new 10 1 100)] [].

Lemma N_nonzero : secp256k1.N <> 0.
Proof. discriminate. Qed.

Lemma G_additive (a b : Z) :
  multiply secp256k1.G (a + b)
  = add (multiply secp256k1.G a) (multiply secp256k1.G b).
Proof.
  unfold multiply, add. cbn [fst snd].
  rewrite !Z.mul_add_distr_l, <- !Z.add_mod by apply N_nonzero. reflexivity.
Qed.

Lemma G_order (a : Z) :
  multiply secp256k1.G (a mod secp256k1.N) = multiply secp256k1.G a.
Proof.
  unfold multiply. rewrite !Z.mul_mod_idemp_r by apply N_nonzero. reflexivity.
Qed.

End Sample.

(** * The sample deployment, phase by phase *)

(** The replies that reach [n1] are those of the sessions of [n2] and
    [n3]. *)
Lemma sample_replies :
  Sample.shares1
  = signed_secret_shares (Sample.online Sample.n1 [Sample.n2; Sample.n3])
  /\ Sample.points1
     = verification_points_replies (Sample.online Sample.n1 [Sample.n2; Sample.n3])
  /\ Sample.parts1
     = encryption_key_parts (Sample.online Sample.n1 [Sample.n2; Sample.n3])
  /\ Sample.secrets1
     = dec_key_parts (Sample.online Sample.n1 [Sample.n2; Sample.n3]).
Proof. repeat apply conj; vm_compute; reflexivity. Qed.

(** The run of [n1] is the sequence of the sessions computed above. *)
Lemma sample_distribution :
  handle_key_distribution_phase Sample.address_to_bytes
    Sample.private_value_to_bytes Sample.address_from_message_and_signature
    (Sample.address Sample.n1) Sample.net1 Sample.distributing
  = (Sample.verifying, None).
Proof. vm_compute. reflexivity. Qed.

(** The same phase when [n2] answers with the pair (1, 1). *)
Lemma forged_distribution :
  handle_key_distribution_phase Sample.address_to_bytes
    Sample.private_value_to_bytes Sample.address_from_message_and_signature
    (Sample.address Sample.n1) Sample.net1_forged Sample.distributing
  = (Sample.deceived, None).
Proof. vm_compute. reflexivity. Qed.

Lemma sample_generation :
  handle_key_generation_phase Sample.add Sample.net1 Sample.generating
  = (Sample.publishing, None).
Proof. vm_compute. reflexivity. Qed.

Lemma sample_publication :
  handle_key_publication_phase Sample.net1 Sample.publishing
  = (Sample.completed, None).
Proof. vm_compute. reflexivity. Qed.

(** The happy path of three nodes: [n1] goes from a fresh session to
    [complete] with threshold 2 and without complaint, and its decryption
    key times G is its encryption key. *)
Example three_nodes_complete :
  Sample.run Sample.n1 Sample.net1 complete Sample.fresh
  = Some (Sample.completed, None)
  /\ ECDKG.phase (self Sample.completed) = complete
  /\ ECDKG.threshold (self Sample.completed) = Some 2
  /\ complaint_rows Sample.completed = []
  /\ option_map (Sample.multiply secp256k1.G)
       (ECDKG.decryption_key (self Sample.completed))
     = ECDKG.encryption_key (self Sample.completed)
  /\ ECDKG.decryption_key (self Sample.completed) = Some 66000201.
Proof. repeat apply conj; vm_compute; reflexivity. Qed.

(** A lost reply to [get_verification_points] brings the session to the
    state on which the verification handler raises. *)
Example lost_points_stall_verification :
  Sample.distribute Sample.n1 Sample.net1_lossy Sample.distributing
  = (Sample.stalled, None)
  /\ Sample.verify Sample.n1 Sample.stalled = (Sample.stalled, Some TypeError)
  /\ ECDKG.phase (self Sample.stalled) = key_verification
  /\ complaint_rows Sample.stalled = [].
Proof. repeat apply conj; vm_compute; reflexivity. Qed.

(** With four peers the threshold is 3 and so are the three lengths. *)
Example four_peers_threshold :
  let s := self (fst (handle_uninitialized_phase Sample.add Sample.multiply
                        Sample.four_peers Sample.fresh)) in
  ECDKG.threshold s = Some 3
  /\ option_map (@length Z) (ECDKG.secret_poly1 s) = Some 3%nat
  /\ option_map (@length Z) (ECDKG.secret_poly2 s) = Some 3%nat
  /\ option_map (@length Point) (ECDKG.verification_points s) = Some 3%nat.
Proof. repeat apply conj; vm_compute; reflexivity. Qed.

(** * Witnesses and counterexamples *)

Lemma joint_key_correct_witness :
  exists ek dk parts secrets,
    ECDKG.encryption_key (self Sample.completed) = Some ek
    /\ ECDKG.decryption_key (self Sample.completed) = Some dk
    /\ ECDKG.phase (self Sample.completed) = complete
    /\ map ECDKGParticipant.encryption_key_part (participants Sample.completed)
       = map Some parts
    /\ map ECDKGParticipant.decryption_key_part (participants Sample.completed)
       = map Some secrets
    /\ ek = fold_left Sample.add parts
              (Sample.multiply secp256k1.G (Sample.drawn 11 0))
    /\ dk = (fold_left Z.add secrets 0 + Sample.drawn 11 0) mod secp256k1.N
    /\ Sample.multiply secp256k1.G dk = ek.
Proof.
  apply (joint_key_correct Sample.add Sample.multiply Sample.G_additive
           Sample.G_order Sample.net1 Sample.generating Sample.publishing
           Sample.completed (Sample.drawn 11 0) [Sample.drawn 11 1]).
  - vm_compute. reflexivity.
  - vm_compute. reflexivity.
  - exact sample_generation.
  - exact sample_publication.
  - unfold Sample.completed, participants, participants_of. simpl List.filter.
    repeat constructor.
    + exists (Sample.drawn 22 0). split; vm_compute; reflexivity.
    + exists (Sample.drawn 33 0). split; vm_compute; reflexivity.
Defined.

(** C2, where the code departs from it: on a participant that has both
    shares and no verification points the handler raises [TypeError],
    whatever the curve operations are: no complaint is recorded and the
    phase stays KeyVerification; the same happens on an empty tuple of
    points. *)
Theorem key_verification_raises_without_points :
  forall add multiply own_address,
    handle_key_verification_phase add multiply own_address
      Sample.without_points
    = (Sample.without_points, Some TypeError)
    /\ shares_verified add multiply own_address
         (ECDKGParticipant.set_verification_points []
            (ECDKGParticipant.set_shares 5 6 (1, 2, 27)
               (ECDKGParticipant.new 10 1 100)))
       = inl TypeError.
Proof. intros add multiply own_address. split; reflexivity. Qed.

(** Against C3: [n2] answers with the pair (1, 1), which is not on the
    curve; the handler stores it as the verification points of that
    participant, a tuple of one item in a session of threshold 2, and goes on
    to the next phase. *)
Lemma off_curve_point_is_stored :
  handle_key_distribution_phase Sample.address_to_bytes
    Sample.private_value_to_bytes Sample.address_from_message_and_signature
    (Sample.address Sample.n1) Sample.net1_forged Sample.distributing
  = (Sample.deceived, None)
  /\ verification_points_replies Sample.net1_forged !! Sample.address Sample.n2
     = Some [Sample.format_curve_point (1, 1)]
  /\ option_map
       (fun p => (ECDKGParticipant.eth_address p,
                  ECDKGParticipant.verification_points p))
       (head (participants Sample.deceived))
     = Some (Sample.address Sample.n2, Some [(1, 1)])
  /\ on_curve (1, 1) = false
  /\ ECDKG.threshold (self Sample.deceived) = Some 2
  /\ ECDKG.phase (self Sample.deceived) = key_verification.
Proof.
  split; [exact forged_distribution|].
  repeat apply conj; vm_compute; reflexivity.
Qed.

Lemma verification_points_stored_unvalidated_witness :
  Forall2 (fun p p' =>
             same_row p p'
             /\ match verification_points_replies Sample.net1_forged
                      !! ECDKGParticipant.eth_address p with
                | Some ptstrs =>
                    exists pts,
                      tuple_of parse_point ptstrs = inr pts
                      /\ length pts = length ptstrs
                      /\ ECDKGParticipant.verification_points p' = Some pts
                | None =>
                    ECDKGParticipant.verification_points p'
                    = ECDKGParticipant.verification_points p
                end)
          (participants Sample.distributing) (participants Sample.deceived).
Proof.
  apply (proj1 (verification_points_stored_unvalidated
                  Sample.address_to_bytes Sample.private_value_to_bytes
                  Sample.address_from_message_and_signature
                  (Sample.address Sample.n1))
           Sample.net1_forged Sample.distributing Sample.deceived).
  exact forged_distribution.
Defined.

(** Against C4: [n3] sent no [encryption_key_part] and no
    [decryption_key_part], and both handlers raise [ValueError], on the reply
    of [n2] that comes first, not [ProtocolError]. *)
Lemma malformed_reply_hides_missing_part :
  map ECDKGParticipant.eth_address (participants Sample.generating)
  = [Sample.address Sample.n2; Sample.address Sample.n3]
  /\ map ECDKGParticipant.eth_address (participants Sample.publishing)
     = [Sample.address Sample.n2; Sample.address Sample.n3]
  /\ encryption_key_parts Sample.net1_garbled !! Sample.address Sample.n3 = None
  /\ dec_key_parts Sample.net1_garbled !! Sample.address Sample.n3 = None
  /\ snd (handle_key_generation_phase Sample.add Sample.net1_garbled
            Sample.generating) = Some ValueError
  /\ snd (handle_key_publication_phase Sample.net1_garbled Sample.publishing)
     = Some ValueError.
Proof. repeat apply conj; vm_compute; reflexivity. Qed.

Lemma protocol_error_iff_part_missing_witness :
  is_ProtocolError
    (snd (handle_key_generation_phase Sample.add Sample.one_reply
            Sample.two_rows)) = true.
Proof.
  apply (proj1 (proj2 (protocol_error_iff_part_missing Sample.add))
           Sample.one_reply Sample.two_rows).
  - repeat constructor; intros s H; vm_compute in H; [|discriminate].
    injection H as <-. eexists. vm_compute. reflexivity.
  - exists (ECDKGParticipant.new 2 1 200). split.
    + right. left. reflexivity.
    + vm_compute. reflexivity.
Defined.

Lemma commitments_established_and_kept_witness :
  exists w',
    handle_uninitialized_phase Sample.add Sample.multiply Sample.net1
      Sample.fresh = (w', None)
    /\ commitments_valid Sample.add Sample.multiply (self w').
Proof.
  apply (proj1 (commitments_established_and_kept Sample.add Sample.multiply
                  Sample.address_to_bytes Sample.private_value_to_bytes
                  Sample.address_from_message_and_signature
                  (Sample.address Sample.n1))).
  apply List.NoDup_nil.
Defined.

Lemma uninitialized_threshold_witness :
  exists w',
    handle_uninitialized_phase Sample.add Sample.multiply Sample.four_peers
      Sample.fresh = (w', None)
    /\ let n := Z.of_nat (length (participants w')) in
       ECDKG.threshold (self w')
       = Some (Qceiling (THRESHOLD_FACTOR * inject_Z (n + 1)))
       /\ ECDKG.threshold (self w') = Some ((n + 2) / 2)
       /\ (participants Sample.fresh = [] ->
           List.NoDup (channels Sample.four_peers) ->
           n = Z.of_nat (length (channels Sample.four_peers)))
       /\ (n = 4 -> ECDKG.threshold (self w') = Some 3)
       /\ exists poly1 poly2 vps,
           ECDKG.secret_poly1 (self w') = Some poly1
           /\ ECDKG.secret_poly2 (self w') = Some poly2
           /\ ECDKG.verification_points (self w') = Some vps
           /\ ECDKG.threshold (self w') = Some (Z.of_nat (length poly1))
           /\ length poly2 = length poly1
           /\ length vps = length poly1.
Proof.
  apply (uninitialized_threshold Sample.add Sample.multiply Sample.four_peers
           Sample.fresh).
  apply List.NoDup_nil.
Defined.

Lemma signed_shares_stored_iff_signer_matches_witness :
  Forall2 (fun p p' =>
             same_row p p'
             /\ shares_outcome Sample.address_to_bytes
                  Sample.private_value_to_bytes
                  Sample.address_from_message_and_signature
                  (Sample.address Sample.n1)
                  (signed_secret_shares Sample.net1)
                  (ECDKG.decryption_condition (self Sample.distributing)) p p')
          (participants Sample.distributing) (participants Sample.verifying).
Proof.
  apply (proj1 (proj2 (proj2 (signed_shares_stored_iff_signer_matches
                                Sample.address_to_bytes
                                Sample.private_value_to_bytes
                                Sample.address_from_message_and_signature
                                (Sample.address Sample.n1))))
           Sample.net1 Sample.distributing Sample.verifying).
  exact sample_distribution.
Defined.

Lemma phase_never_decreases_witness :
  exists w' r,
    Sample.run Sample.n1 Sample.net1 complete Sample.fresh = Some (w', r)
    /\ phase_value (ECDKG.phase (self Sample.fresh))
       <= phase_value (ECDKG.phase (self w'))
    /\ (r = None -> phase_value complete <= phase_value (ECDKG.phase (self w'))).
Proof.
  apply (proj2 (proj2 (phase_never_decreases Sample.add Sample.multiply
                         Sample.address_to_bytes Sample.private_value_to_bytes
                         Sample.address_from_message_and_signature
                         (Sample.address Sample.n1)))
           6%nat Sample.net1 complete Sample.fresh).
  apply le_n.
Defined.

Lemma to_state_message_raises_on_verification_points_witness :
  ECDKGParticipant.to_state_message
    (ECDKGParticipant.set_verification_points [(1, 2)]
       (ECDKGParticipant.new 1 1 100))
  = inl TypeError.
Proof.
  apply (proj1 to_state_message_raises_on_verification_points
           (ECDKGParticipant.set_verification_points [(1, 2)]
              (ECDKGParticipant.new 1 1 100)) [(1, 2)]).
  reflexivity.
Defined.
